(** * toolkit/gtfs/scenario.py: the scenario builder of the ONE toolkit

    [main] reads a GTFS feed (and optionally an OpenStreetMap extract), fits
    one projection pane over all route nodes, and writes the files of a ONE
    scenario.  The function only orchestrates: the feed reader, the map
    parser, the projector, the settings objects and the file writers live in
    [lib/], and are taken here as interfaces.  A run is modelled as the
    sequence of calls [main] makes on them, in program order, together with
    its outcome. *)

From Stdlib Require Import ZArith List String Ascii Lia DecimalString.
From stdpp Require Import gmap strings list fin_maps.

Local Open Scope string_scope.
Local Open Scope Z_scope.
Local Open Scope list_scope.

(** ** Strings and paths *)

Module Py.

(** [str(n)] for a Python int. *)
Definition str_of_int (n : Z) : string := NilZero.string_of_int (Z.to_int n).

(** [s.split(sep)] for a one-character separator. *)
Fixpoint split (sep : ascii) (s : string) : list string :=
  match s with
  | EmptyString => [EmptyString]
  | String c rest =>
      if Ascii.eqb c sep then EmptyString :: split sep rest
      else match split sep rest with
           | w :: ws => String c w :: ws
           | [] => [String c EmptyString]
           end
  end.

(** [s.rfind(c)]: the index of the last occurrence, or -1. *)
Fixpoint rfind_from (c : ascii) (s : string) (i found : Z) : Z :=
  match s with
  | EmptyString => found
  | String d rest => rfind_from c rest (i + 1) (if Ascii.eqb d c then i else found)
  end.

Definition rfind (c : ascii) (s : string) : Z := rfind_from c s 0 (-1).

(** [s[i:]] and [s[:i]] for [0 <= i]. *)
Definition drop_str (i : nat) (s : string) : string :=
  substring i (String.length s - i)%nat s.
Definition take_str (i : nat) (s : string) : string := substring 0 i s.

Definition startswith (c : ascii) (s : string) : bool :=
  match s with
  | String d _ => Ascii.eqb d c
  | EmptyString => false
  end.

Fixpoint endswith (c : ascii) (s : string) : bool :=
  match s with
  | EmptyString => false
  | String d EmptyString => Ascii.eqb d c
  | String _ rest => endswith c rest
  end.

(** [posixpath.basename]: [p[p.rfind('/') + 1:]]. *)
Definition basename (p : string) : string :=
  drop_str (Z.to_nat (rfind "/" p + 1)) p.

(** [posixpath.splitext(p)[0]]: cut at the last dot of the last component,
    unless only dots come before it in that component. *)
Definition splitext_root (p : string) : string :=
  let sepIndex := rfind "/" p in
  let dotIndex := rfind "." p in
  if sepIndex <? dotIndex then
    let lo := Z.to_nat (sepIndex + 1) in
    if existsb
         (fun i => match String.get i p with
                   | Some d => negb (Ascii.eqb d ".")
                   | None => false
                   end)
         (seq lo (Z.to_nat dotIndex - lo))
    then take_str (Z.to_nat dotIndex) p
    else p
  else p.

(** [posixpath.join(a, b)]. *)
Definition join (a b : string) : string :=
  if startswith "/" b then b
  else if (String.eqb a "" || endswith "/" a)%bool then a +:+ b
  else a +:+ "/" +:+ b.

(** [Path(p).parent] for an absolute, normalised [p] (what [Path.cwd()]
    gives). *)
Definition parent (p : string) : string :=
  let i := rfind "/" p in
  if i <=? 0 then "/" else take_str (Z.to_nat i) p.

(** [template.format(arg)] for templates whose only replacement fields are
    auto-numbered [{}]: each one is replaced by [arg].  [main] formats
    the joined path [out_dir/{}_nodes.wkt], so this function gives what
    Python gives when the directory part has no brace ([brace_free]).  With
    a brace in the directory Python reads further fields from it and raises,
    or halves a doubled brace; that is not modelled, and every statement
    below about a run that gets to the route loop, or about a whole run,
    asks for [brace_free] of the scenario directory. *)
Fixpoint format (template arg : string) : string :=
  match template with
  | EmptyString => EmptyString
  | String c rest =>
      match rest with
      | String d rest' =>
          if (Ascii.eqb c "{" && Ascii.eqb d "}")%bool
          then arg +:+ format rest' arg
          else String c (format rest arg)
      | EmptyString => String c EmptyString
      end
  end.

Fixpoint brace_free (s : string) : bool :=
  match s with
  | EmptyString => true
  | String c rest =>
      (negb (Ascii.eqb c "{") && negb (Ascii.eqb c "}") && brace_free rest)%bool
  end.

End Py.

(** ** Reading strings *)

(** The character occurs in the string. *)
Fixpoint has_char (c : ascii) (s : string) : bool :=
  match s with
  | EmptyString => false
  | String d rest => (Ascii.eqb d c || has_char c rest)%bool
  end.

(** The string is made of the one character only (the empty string is). *)
Fixpoint only_char (c : ascii) (s : string) : bool :=
  match s with
  | EmptyString => true
  | String d rest => (Ascii.eqb d c && only_char c rest)%bool
  end.

(** The position of the last occurrence of a character. *)
Fixpoint last_pos (c : ascii) (s : string) : option nat :=
  match s with
  | EmptyString => None
  | String d rest =>
      match last_pos c rest with
      | Some k => Some (S k)
      | None => if Ascii.eqb d c then Some 0%nat else None
      end
  end.

(** [sep.join(parts)]. *)
Fixpoint join_with (sep : string) (parts : list string) : string :=
  match parts with
  | [] => EmptyString
  | w :: rest =>
      match rest with
      | [] => w
      | _ :: _ => w +:+ sep +:+ join_with sep rest
      end
  end.

(** ** Data *)

(** [lib.commons.TransitRoute].  [shape_routes] builds routes from a name, a
    node list and a stop list; the routes of the map extract also carry the
    identifiers of their first and last stop. *)
Record TransitRoute (Geo : Type) := {
  name : string;
  nodes : list Geo;
  stops : list Geo;
  first_stop : option string;
  last_stop : option string
}.
Arguments name {Geo} _.
Arguments nodes {Geo} _.
Arguments stops {Geo} _.
Arguments first_stop {Geo} _.
Arguments last_stop {Geo} _.

(** The key [osm_routes] hands to the feed reader for each map route. *)
Definition ref_key : Type := string * option string * option string * nat.

(** [lib.one.HostGroup] and [lib.one.ScenarioSettings] are written to only:
    an object is the list of the calls made on it, oldest first. *)
Inductive value :=
| VStr (s : string)
| VInt (n : Z).

Inductive group_call :=
| GSet (key : string) (v : value)
| GSetOkmap (file : string).

Record HostGroup := {
  group_id : string;
  group_delim : option string;
  group_calls : list group_call
}.

Inductive settings_call :=
| AddGroup (g : HostGroup)
| CompleteGroups
| Spacer
| SSet (key : string) (v : value).

Record ScenarioSettings := {
  scenario_name : string;
  settings_calls : list settings_call
}.

Definition new_group (id : string) (delim : option string) : HostGroup :=
  {| group_id := id; group_delim := delim; group_calls := [] |}.
Definition gset_opt (g : HostGroup) (key : string) (v : value) : HostGroup :=
  {| group_id := group_id g; group_delim := group_delim g;
     group_calls := group_calls g ++ [GSet key v] |}.
Definition set_okmap (g : HostGroup) (file : string) : HostGroup :=
  {| group_id := group_id g; group_delim := group_delim g;
     group_calls := group_calls g ++ [GSetOkmap file] |}.

Definition new_settings (scenario : string) : ScenarioSettings :=
  {| scenario_name := scenario; settings_calls := [] |}.
Definition settings_do (s : ScenarioSettings) (c : settings_call) : ScenarioSettings :=
  {| scenario_name := scenario_name s; settings_calls := settings_calls s ++ [c] |}.

(** Command line arguments ([argparse]) and what [main] reads of the
    process environment. *)
Record Args := {
  gtfs_file : string;
  osm : option string;
  types : string;
  weekday : Z;
  max_exceptions : Z
}.

Record Env := {
  cwd : string;
  isdir : string -> bool
}.

(** Python truth value of [args.osm]: [None] and the empty string are false. *)
Definition truthy (o : option string) : bool :=
  match o with
  | Some s => negb (String.eqb s "")
  | None => false
  end.

(** ** Collaborators *)

(** [lib.gtfs.GTFSReader]: [G] is the state of the reader object. *)
Class GTFSReader (Geo Sched Dur G : Type) := {
  new_reader : G;
  load_feed : G -> string -> list string -> bool -> G;
  set_ref_trips : G -> list ref_key -> G;
  build_ref_trips : G -> G;
  route_names : G -> list string;
  shape_paths : G -> gmap string (list Geo);
  shape_stops : G -> gmap string (list Geo);
  schedule : G -> Z -> Z -> G * gmap string Sched;
  trip_durations : G -> gmap string Dur
}.

(** [lib.osm.OsmRouteParser]: the routes of the file at a path. *)
Class OsmRouteParser (Geo : Type) := {
  parse_routes : string -> list (TransitRoute Geo)
}.

(** [lib.project.Projector]: [P] is the state of the projector object.
    [init_dimensions] may raise. *)
Class Projector (Geo Pt Len P : Type) `{Countable Geo} := {
  new_projector : Z -> P;
  init_dimensions : P -> gset Geo -> option (P * (Len * Len));
  transform_coords : P -> list Geo -> list Pt
}.

(** ** Collaborators modelled from the specification

    [main] only calls into [lib/].  The statements that depend on what a
    collaborator computes, and the concrete runs used as examples, use the
    models of this module, written from the specification. *)

Module Model.

(** Modelled from the spec: the Duration Estimator of [lib.gtfs], behind
    [GTFSReader.trip_durations] (section 4.4).  From the timestamps of the
    representative trip it gives one duration per consecutive stop pair, the
    difference of the two timestamps; a pair that goes back in time is
    reported and its duration is clamped to zero. *)
Inductive report :=
| NonMonotonic (earlier later : Z).

Fixpoint estimate (times : list Z) : list Z * list report :=
  match times with
  | t1 :: rest =>
      match rest with
      | t2 :: _ =>
          let '(ds, rs) := estimate rest in
          if t2 <? t1
          then (0 :: ds, NonMonotonic t1 t2 :: rs)
          else (t2 - t1 :: ds, rs)
      | [] => ([], [])
      end
  | [] => ([], [])
  end.

Definition durations_of (times : list Z) : list Z := fst (estimate times).
Definition reports_of (times : list Z) : list report := snd (estimate times).

(** Modelled from the spec: a feed as the reader of [lib.gtfs] sees it
    (sections 3, 4.3 and 6).  A feed route has a name, the identifiers of its
    first and last stop, its stop count, the timestamps of its representative
    trip and its departures; shape geometry, when the feed has any, is kept
    per route name. *)
Record FeedRoute := {
  fr_name : string;
  fr_first : string;
  fr_last : string;
  fr_stop_count : nat;
  fr_times : list Z;
  fr_departures : list Z
}.

Record Feed (Geo : Type) := {
  feed_routes : list FeedRoute;
  feed_shapes : gmap string (list Geo);
  feed_shape_stops : gmap string (list Geo)
}.
Arguments feed_routes {Geo} _.
Arguments feed_shapes {Geo} _.
Arguments feed_shape_stops {Geo} _.

(** The feed carries native shape geometry. *)
Definition has_shapes {Geo} (f : Feed Geo) : bool :=
  negb (bool_decide (dom (feed_shapes f) = ∅)).

(** Modelled from the spec: the matching of [GTFSReader.set_ref_trips]
    (section 4.3): a map route matches a feed route on exact name equality,
    first and last stop identity and equal stop count. *)
Definition matches (k : ref_key) (fr : FeedRoute) : bool :=
  let '(n, fst_stop, lst_stop, count) := k in
  (String.eqb n (fr_name fr)
   && bool_decide (fst_stop = Some (fr_first fr))
   && bool_decide (lst_stop = Some (fr_last fr))
   && Nat.eqb count (fr_stop_count fr))%bool.

Definition has_match (k : ref_key) (routes : list FeedRoute) : bool :=
  existsb (matches k) routes.

(** The state of the reader: the loaded feed and the reference routes, those
    the schedule and the durations are built for. *)
Record Reader (Geo : Type) := {
  rd_feed : Feed Geo;
  rd_refs : list FeedRoute
}.
Arguments rd_feed {Geo} _.
Arguments rd_refs {Geo} _.

Definition empty_feed {Geo} : Feed Geo :=
  {| feed_routes := []; feed_shapes := ∅; feed_shape_stops := ∅ |}.

Definition load {Geo} (f : Feed Geo) (with_shapes : bool) : Reader Geo :=
  {| rd_feed :=
       if with_shapes then f
       else {| feed_routes := feed_routes f; feed_shapes := ∅; feed_shape_stops := ∅ |};
     rd_refs := [] |}.

Definition with_refs {Geo} (g : Reader Geo) (refs : list FeedRoute) : Reader Geo :=
  {| rd_feed := rd_feed g; rd_refs := refs |}.

Definition table {V} (f : FeedRoute -> V) (refs : list FeedRoute) : gmap string V :=
  list_to_map (map (fun fr => (fr_name fr, f fr)) refs).

(** Modelled from the spec: [lib.gtfs.GTFSReader] over the feed [f], the
    content of the feed file (sections 4.3, 4.4 and 6).  Setting the
    reference trips from map routes keeps the feed routes some map route
    matches, building them keeps all; the schedule and the durations cover
    the reference routes.  The calendar and the choice of the
    representative trip are not modelled: the feed route comes with its
    representative trip. *)
Definition reader {Geo} (f : Feed Geo) : GTFSReader Geo (list Z) (list Z) (Reader Geo) :=
  {| new_reader := {| rd_feed := empty_feed; rd_refs := [] |};
     load_feed := fun _ _ _ with_shapes => load f with_shapes;
     set_ref_trips := fun g keys =>
       with_refs g (filter (fun fr => existsb (fun k => matches k fr) keys)
                           (feed_routes (rd_feed g)));
     build_ref_trips := fun g => with_refs g (feed_routes (rd_feed g));
     route_names := fun g => map fr_name (rd_refs g);
     shape_paths := fun g => feed_shapes (rd_feed g);
     shape_stops := fun g => feed_shape_stops (rd_feed g);
     schedule := fun g _ _ => (g, table fr_departures (rd_refs g));
     trip_durations := fun g => table (fun fr => durations_of (fr_times fr)) (rd_refs g) |}.

(** The feed [f] with other timestamps for its representative trips. *)
Definition retime {Geo} (times : FeedRoute -> list Z) (f : Feed Geo) : Feed Geo :=
  {| feed_routes :=
       map (fun fr => {| fr_name := fr_name fr; fr_first := fr_first fr;
                         fr_last := fr_last fr; fr_stop_count := fr_stop_count fr;
                         fr_times := times fr; fr_departures := fr_departures fr |})
           (feed_routes f);
     feed_shapes := feed_shapes f;
     feed_shape_stops := feed_shape_stops f |}.

(** Modelled from the spec: [lib.osm.OsmRouteParser] over the routes of
    the map extract, the content of the map file (section 6). *)
Definition parser {Geo} (routes : list (TransitRoute Geo)) : OsmRouteParser Geo :=
  {| parse_routes := fun _ => routes |}.

(** Modelled from the spec: the Coordinate Projector of [lib.project]
    (section 4.5): an offset and a scale fitted so that the minimum corner of
    the points maps to (0, 0), with the bounding width and height of the
    transformed set; fitting zero points is the fatal precondition violation
    of section 7.  Geographic coordinates are integers (fixed-point degrees);
    planar coordinates and lengths are integers counting units of
    [10 ^ -precision] metres, which is the output rounding.  The scale, in
    metres per geographic unit, is the fraction [num / den]. *)
Record Frame := {
  off_x : Z;
  off_y : Z;
  width : Z;
  height : Z
}.

Record ProjectorState := {
  precision : Z;
  frame : option Frame
}.

Fixpoint minimum (x : Z) (l : list Z) : Z :=
  match l with
  | [] => x
  | y :: l' => Z.min x (minimum y l')
  end.

Fixpoint maximum (x : Z) (l : list Z) : Z :=
  match l with
  | [] => x
  | y :: l' => Z.max x (maximum y l')
  end.

Section Projection.

Variables num den : positive.

(** Modelled from the spec: a geographic distance scaled to output units and
    rounded to the nearest. *)
Definition to_plane (prec d : Z) : Z :=
  (2 * d * Z.pos num * 10 ^ prec + Z.pos den) / (2 * Z.pos den).

(** Modelled from the spec: fitting the frame (sections 4.5 and 7).  Zero
    points give no frame; otherwise the offset is the minimum corner and the
    width and height are the extent of the points, in output units. *)
Definition fit (prec : Z) (points : gset (Z * Z)) : option Frame :=
  match elements points with
  | [] => None
  | p :: ps =>
      let min_x := minimum (fst p) (map fst ps) in
      let min_y := minimum (snd p) (map snd ps) in
      let max_x := maximum (fst p) (map fst ps) in
      let max_y := maximum (snd p) (map snd ps) in
      Some {| off_x := min_x; off_y := min_y;
              width := to_plane prec (max_x - min_x);
              height := to_plane prec (max_y - min_y) |}
  end.

(** Modelled from the spec: the transform of one point (section 4.5). *)
Definition apply (prec : Z) (f : Frame) (p : Z * Z) : Z * Z :=
  (to_plane prec (fst p - off_x f), to_plane prec (snd p - off_y f)).

(** Modelled from the spec: [lib.project.Projector] (sections 4.5 and 6).
    [main] transforms only after a fit; a projector without a frame
    transforms to nothing here. *)
Definition projector : Projector (Z * Z) (Z * Z) Z ProjectorState :=
  {| new_projector := fun prec => {| precision := prec; frame := None |};
     init_dimensions := fun p points =>
       match fit (precision p) points with
       | Some f => Some ({| precision := precision p; frame := Some f |}, (width f, height f))
       | None => None
       end;
     transform_coords := fun p coords =>
       match frame p with
       | Some f => map (apply (precision p) f) coords
       | None => []
       end |}.

End Projection.

(** Modelled from the spec: [math.ceil] of a length counted in hundredths
    of a metre, the unit of the projector [main] creates ([precision=2]). *)
Definition ceil_metres (l : Z) : Z := - ((- l) / 100).

End Model.

(** ** Runs *)

(** The exceptions of a run: a route name missing from a shape table, and the
    failure of the fit.  Every other call on a collaborator or on the file
    system returns. *)
Inductive error :=
| KeyError (key : string)
| ProjectorError.

Section Run.

Context {Geo Pt Sched Dur P : Type}.
Context `{Countable Geo} `{Countable Pt}.

(** The calls [main] makes, on the logger, on its collaborators and on the
    file system, with the arguments it passes. *)
Inductive event :=
| Log (msg : string)
| LoadFeed (file : string) (route_types : list string) (with_shapes : bool)
| OpenOsm (file : string)
| ParseRoutes
| SetRefTrips (refs : list ref_key)
| BuildRefTrips
| RouteNames
| ShapePaths
| ShapeStops
| BuildSchedule (weekday_type max_exc : Z)
| TripDurations
| InitDimensions (points : gset Geo)
| Mkdir (dir : string)
| TransformCoords (proj : P) (coords : list Geo)
| WriteWktLinestring (coords : list Pt) (file : string)
| WriteCsvStops (coords : list Pt) (durations : option Dur) (file : string)
| WriteCsvSchedule (sched : option Sched) (file : string)
| WriteWktPoints (points : gset Pt) (file : string)
| WriteSettings (s : ScenarioSettings) (file : string).

(** A computation yields the calls it made and either an exception or a
    value; the calls made before an exception stay made. *)
Definition M (A : Type) : Type := list event * (error + A).

Definition ret {A} (a : A) : M A := ([], inr a).
Definition raise {A} (e : error) : M A := ([], inl e).
Definition emit (e : event) : M unit := ([e], inr tt).
Definition bind {A B} (m : M A) (f : A -> M B) : M B :=
  match m with
  | (t, inl e) => (t, inl e)
  | (t, inr a) => let '(t', r) := f a in (t ++ t', r)
  end.

Definition trace {A} (m : M A) : list event := fst m.
Definition outcome {A} (m : M A) : error + A := snd m.

End Run.

Arguments event : clear implicits.
Arguments event Geo Pt Sched Dur P {_ _ _ _}.
Arguments M : clear implicits.
Arguments M Geo Pt Sched Dur P {_ _ _ _} A.

Declare Scope run_scope.
Delimit Scope run_scope with run.
Notation "x <- m ;; k" := (bind m (fun x => k))
  (at level 100, m at next level, right associativity) : run_scope.
Notation "m ;; k" := (bind m (fun _ => k))
  (at level 100, right associativity) : run_scope.

(** ** The program *)

Definition DATA_DIR : string := "data".
Definition NODES_FILE : string := "{}_nodes.wkt".
Definition STOPS_FILE : string := "{}_stops.csv".
Definition SCHEDULE_FILE : string := "{}_schedule.csv".
Definition STATIONS_FILE : string := "stations.wkt".
Definition NR_OF_HOSTS : Z := 1.
Definition HOST_ID_DELIM : string := "_".

Definition basename_without_ext (file : string) : string :=
  let base := Py.basename file in
  Py.splitext_root base.

Section Main.

Context {Geo Pt Len Sched Dur G P : Type}.
Context `{Countable Geo} `{Countable Pt}.
Context `{reader_ops : !GTFSReader Geo Sched Dur G} `{parser_ops : !OsmRouteParser Geo}
        `{projector_ops : !Projector Geo Pt Len P}.
(** [math.ceil] on the lengths the projector returns. *)
Context (ceil : Len -> Z).

Local Open Scope run_scope.

Local Abbreviation Run := (M Geo Pt Sched Dur P).

(** [for x in xs: body], threading the variables the body assigns. *)
Fixpoint for_each {A S : Type} (xs : list A) (body : S -> A -> Run S) (s : S) : Run S :=
  match xs with
  | [] => ret s
  | x :: xs' => s' <- body s x ;; for_each xs' body s'
  end.

(** [d[k]], raising [KeyError] on a missing key. *)
Definition subscript {V : Type} (d : gmap string V) (k : string) : Run V :=
  match d !! k with
  | Some v => ret v
  | None => raise (KeyError k)
  end.

Definition osm_routes (gtfs : G) (osm_file : string) : Run (list (TransitRoute Geo) * G) :=
  emit (Log "reading route paths from osm file") ;;
  emit (OpenOsm osm_file) ;;
  emit ParseRoutes ;;
  let routes := parse_routes osm_file in
  let ref_routes :=
    map (fun r => (name r, first_stop r, last_stop r, length (stops r))) routes in
  emit (SetRefTrips ref_routes) ;;
  let gtfs := set_ref_trips gtfs ref_routes in
  ret (routes, gtfs).

Definition shape_routes (gtfs : G) : Run (list (TransitRoute Geo) * G) :=
  emit (Log "reading route paths from gtfs shapes") ;;
  emit BuildRefTrips ;;
  let gtfs := build_ref_trips gtfs in
  emit RouteNames ;;
  let route_names := route_names gtfs in
  emit ShapePaths ;;
  let paths := shape_paths gtfs in
  emit ShapeStops ;;
  let stops := shape_stops gtfs in
  routes <- for_each route_names
    (fun routes r =>
       p <- subscript paths r ;;
       s <- subscript stops r ;;
       ret (routes ++ [{| name := r; nodes := p; stops := s;
                          first_stop := None; last_stop := None |}]))
    [] ;;
  ret (routes, gtfs).

(** The variables the route loop of [main] assigns. *)
Record loop_state := {
  ls_settings : ScenarioSettings;
  ls_stations : gset Pt
}.

Definition route_body (proj : P) (nodes_file stops_file schedule_file : string)
    (durations : gmap string Dur) (sched : gmap string Sched)
    (st : loop_state) (r : TransitRoute Geo) : Run loop_state :=
  emit (TransformCoords proj (nodes r)) ;;
  let nodes := transform_coords proj (nodes r) in
  emit (TransformCoords proj (stops r)) ;;
  let stops := transform_coords proj (stops r) in
  let name := name r in
  let stations := ls_stations st ∪ list_to_set stops in
  let g := new_group name (Some HOST_ID_DELIM) in
  let g := gset_opt g "movementModel" (VStr "TransitMapMovement") in
  let g := gset_opt g "routeFile" (VStr (Py.format stops_file name)) in
  let g := gset_opt g "scheduleFile" (VStr (Py.format schedule_file name)) in
  let g := gset_opt g "routeType" (VInt 2) in
  let g := gset_opt g "nrofHosts" (VInt NR_OF_HOSTS) in
  let g := set_okmap g (Py.format nodes_file name) in
  let s := settings_do (ls_settings st) (AddGroup g) in
  emit (WriteWktLinestring nodes (Py.format nodes_file name)) ;;
  emit (WriteCsvStops stops (durations !! name) (Py.format stops_file name)) ;;
  emit (WriteCsvSchedule (sched !! name) (Py.format schedule_file name)) ;;
  ret {| ls_settings := s; ls_stations := stations |}.

Definition main (env : Env) (args : Args) : Run unit :=
  let scenario := basename_without_ext (gtfs_file args) in
  let route_types := Py.split "," (types args) in
  let with_shapes := negb (truthy (osm args)) in
  emit (Log ("reading gtfs feed in " +:+ gtfs_file args)) ;;
  let gtfs := new_reader in
  emit (LoadFeed (gtfs_file args) route_types with_shapes) ;;
  let gtfs := load_feed gtfs (gtfs_file args) route_types with_shapes in
  rg <- (if truthy (osm args)
         then osm_routes gtfs (default "" (osm args))
         else shape_routes gtfs) ;;
  let routes := fst rg in
  let gtfs := snd rg in
  emit (Log "building schedule and trip durations") ;;
  emit (BuildSchedule (weekday args) (max_exceptions args)) ;;
  let gs := schedule gtfs (weekday args) (max_exceptions args) in
  let gtfs := fst gs in
  let sched := snd gs in
  emit TripDurations ;;
  let durations := trip_durations gtfs in
  let points :=
    fold_left (fun points r => points ∪ list_to_set (nodes r)) routes (∅ : gset Geo) in
  let proj := new_projector 2 in
  emit (InitDimensions points) ;;
  pd <- match init_dimensions proj points with
        | Some pd => ret pd
        | None => raise ProjectorError
        end ;;
  let proj := fst pd in
  let width := fst (snd pd) in
  let height := snd (snd pd) in
  let one_dir := Py.parent (Py.parent (cwd env)) in
  let out_dir := Py.join (Py.join one_dir DATA_DIR) scenario in
  (if negb (isdir env out_dir) then emit (Mkdir out_dir) else ret tt) ;;
  emit (Log "creating ONE scenario and writing files") ;;
  let nodes_file := Py.join out_dir NODES_FILE in
  let stops_file := Py.join out_dir STOPS_FILE in
  let schedule_file := Py.join out_dir SCHEDULE_FILE in
  let stations_file := Py.join out_dir STATIONS_FILE in
  let s := new_settings scenario in
  st <- for_each routes
    (route_body proj nodes_file stops_file schedule_file durations sched)
    {| ls_settings := s; ls_stations := ∅ |} ;;
  let s := ls_settings st in
  let stations := ls_stations st in
  emit (WriteWktPoints stations stations_file) ;;
  let g := new_group "S" None in
  let g := gset_opt g "movementModel" (VStr "StationaryMultiPointMovement") in
  let g := gset_opt g "stationarySystemNr" (VInt 1) in
  let g := gset_opt g "pointFile" (VStr stations_file) in
  let g := gset_opt g "nrofHosts" (VInt (Z.of_nat (size stations))) in
  let s := settings_do s (AddGroup g) in
  let s := settings_do s CompleteGroups in
  let s := settings_do s Spacer in
  let s := settings_do s
    (SSet "MovementModel.worldSize"
       (VStr (Py.str_of_int (ceil width) +:+ ", " +:+ Py.str_of_int (ceil height)))) in
  let s := settings_do s
    (SSet "Events1.hosts"
       (VStr (Py.str_of_int 0 +:+ "," +:+
              Py.str_of_int (Z.of_nat (length routes) * NR_OF_HOSTS
                             + Z.of_nat (size stations) - 1)))) in
  emit (WriteSettings s (Py.join one_dir (scenario +:+ "_settings.txt"))).

(** ** The shape of a run

    The definitions below name the parts of a run of [main]; the lemmas
    [main_resolve_error], [main_fit_error] and [main_ok] give the three
    forms a run can take. *)

Definition loaded (args : Args) : G :=
  load_feed new_reader (gtfs_file args) (Py.split "," (types args))
            (negb (truthy (osm args))).

Definition resolve (args : Args) : Run (list (TransitRoute Geo) * G) :=
  if truthy (osm args)
  then osm_routes (loaded args) (default "" (osm args))
  else shape_routes (loaded args).

(** The routes the loop of [shape_routes] builds, or the key it misses. *)
Fixpoint build_routes (paths stops_of : gmap string (list Geo)) (names : list string)
    (acc : list (TransitRoute Geo)) : error + list (TransitRoute Geo) :=
  match names with
  | [] => inr acc
  | n :: names' =>
      match paths !! n, stops_of !! n with
      | Some p, Some s =>
          build_routes paths stops_of names'
            (acc ++ [{| name := n; nodes := p; stops := s;
                        first_stop := None; last_stop := None |}])
      | _, _ => inl (KeyError n)
      end
  end.

(** The routes of an outcome of [resolve], without the reader state. *)
Definition routes_of {A B : Type} (o : error + A * B) : error + A :=
  match o with
  | inl e => inl e
  | inr (a, _) => inr a
  end.

Definition nodes_points (routes : list (TransitRoute Geo)) : gset Geo :=
  fold_left (fun points r => points ∪ list_to_set (nodes r)) routes ∅.

Definition one_dir (env : Env) : string := Py.parent (Py.parent (cwd env)).
Definition scenario_of (args : Args) : string := basename_without_ext (gtfs_file args).
Definition out_dir (env : Env) (args : Args) : string :=
  Py.join (Py.join (one_dir env) DATA_DIR) (scenario_of args).
Definition nodes_path env args (n : string) := Py.format (Py.join (out_dir env args) NODES_FILE) n.
Definition stops_path env args (n : string) := Py.format (Py.join (out_dir env args) STOPS_FILE) n.
Definition schedule_path env args (n : string) :=
  Py.format (Py.join (out_dir env args) SCHEDULE_FILE) n.
Definition stations_path env args := Py.join (out_dir env args) STATIONS_FILE.
Definition settings_path env args := Py.join (one_dir env) (scenario_of args +:+ "_settings.txt").

Definition preamble (args : Args) : list (event Geo Pt Sched Dur P) :=
  [Log ("reading gtfs feed in " +:+ gtfs_file args);
   LoadFeed (gtfs_file args) (Py.split "," (types args)) (negb (truthy (osm args)))].

Definition timing_events (args : Args) : list (event Geo Pt Sched Dur P) :=
  [Log "building schedule and trip durations";
   BuildSchedule (weekday args) (max_exceptions args);
   TripDurations].

Definition timed (args : Args) (gtfs : G) : G * gmap string Sched :=
  schedule gtfs (weekday args) (max_exceptions args).

Definition mkdir_events (env : Env) (args : Args) : list (event Geo Pt Sched Dur P) :=
  if isdir env (out_dir env args) then [] else [Mkdir (out_dir env args)].

Definition route_group env args (r : TransitRoute Geo) : HostGroup :=
  {| group_id := name r;
     group_delim := Some HOST_ID_DELIM;
     group_calls :=
       [GSet "movementModel" (VStr "TransitMapMovement");
        GSet "routeFile" (VStr (stops_path env args (name r)));
        GSet "scheduleFile" (VStr (schedule_path env args (name r)));
        GSet "routeType" (VInt 2);
        GSet "nrofHosts" (VInt NR_OF_HOSTS);
        GSetOkmap (nodes_path env args (name r))] |}.

Definition route_events env args (proj : P) (durations : gmap string Dur)
    (sched : gmap string Sched) (r : TransitRoute Geo) : list (event Geo Pt Sched Dur P) :=
  [TransformCoords proj (nodes r);
   TransformCoords proj (stops r);
   WriteWktLinestring (transform_coords proj (nodes r)) (nodes_path env args (name r));
   WriteCsvStops (transform_coords proj (stops r)) (durations !! name r)
                 (stops_path env args (name r));
   WriteCsvSchedule (sched !! name r) (schedule_path env args (name r))].

Definition stations_from (proj : P) (routes : list (TransitRoute Geo)) (acc : gset Pt) : gset Pt :=
  fold_left (fun stations r => stations ∪ list_to_set (transform_coords proj (stops r)))
            routes acc.

Definition stations_of (proj : P) (routes : list (TransitRoute Geo)) : gset Pt :=
  stations_from proj routes ∅.

Definition station_group env args (stations : gset Pt) : HostGroup :=
  {| group_id := "S";
     group_delim := None;
     group_calls :=
       [GSet "movementModel" (VStr "StationaryMultiPointMovement");
        GSet "stationarySystemNr" (VInt 1);
        GSet "pointFile" (VStr (stations_path env args));
        GSet "nrofHosts" (VInt (Z.of_nat (size stations)))] |}.

Definition hosts_max (routes : list (TransitRoute Geo)) (stations : gset Pt) : Z :=
  Z.of_nat (length routes) * NR_OF_HOSTS + Z.of_nat (size stations) - 1.

Definition final_settings env args (routes : list (TransitRoute Geo))
    (stations : gset Pt) (width height : Len) : ScenarioSettings :=
  {| scenario_name := scenario_of args;
     settings_calls :=
       map (fun r => AddGroup (route_group env args r)) routes ++
       [AddGroup (station_group env args stations);
        CompleteGroups;
        Spacer;
        SSet "MovementModel.worldSize"
             (VStr (Py.str_of_int (ceil width) +:+ ", " +:+ Py.str_of_int (ceil height)));
        SSet "Events1.hosts"
             (VStr (Py.str_of_int 0 +:+ "," +:+ Py.str_of_int (hosts_max routes stations)))] |}.

(** ** Reading a run *)

Definition is_fit (e : event Geo Pt Sched Dur P) : bool :=
  match e with
  | InitDimensions _ => true
  | _ => false
  end.

Definition is_transform (e : event Geo Pt Sched Dur P) : bool :=
  match e with
  | TransformCoords _ _ => true
  | _ => false
  end.

(** The file an event writes, if it writes one. *)
Definition written_file (e : event Geo Pt Sched Dur P) : option string :=
  match e with
  | WriteWktLinestring _ f => Some f
  | WriteCsvStops _ _ f => Some f
  | WriteCsvSchedule _ f => Some f
  | WriteWktPoints _ f => Some f
  | WriteSettings _ f => Some f
  | _ => None
  end.

Definition written_files (t : list (event Geo Pt Sched Dur P)) : list string :=
  omap written_file t.

(** The event touches the file system for output: a file or the scenario
    directory. *)
Definition is_output (e : event Geo Pt Sched Dur P) : bool :=
  match e with
  | Mkdir _ => true
  | _ => bool_decide (is_Some (written_file e))
  end.

(** The two geometry sources: the map extract and the shapes of the feed. *)
Definition reads_map_extract (e : event Geo Pt Sched Dur P) : bool :=
  match e with
  | OpenOsm _ | ParseRoutes => true
  | _ => false
  end.

Definition reads_shapes (e : event Geo Pt Sched Dur P) : bool :=
  match e with
  | ShapePaths | ShapeStops => true
  | _ => false
  end.

Definition used_map_extract (t : list (event Geo Pt Sched Dur P)) : bool :=
  existsb reads_map_extract t.
Definition used_shapes (t : list (event Geo Pt Sched Dur P)) : bool :=
  existsb reads_shapes t.

(** The three files of a route, by name. *)
Definition route_files env args (n : string) : list string :=
  [nodes_path env args n; stops_path env args n; schedule_path env args n].

(** Every point a route refers to, in its geometry or in its stops. *)
Definition referenced_points (routes : list (TransitRoute Geo)) : gset Geo :=
  fold_left (fun points r => points ∪ list_to_set (nodes r ++ stops r)) routes ∅.

(** What a settings object says about hosts: the [nrofHosts] a group was
    given last, the sum over the groups added, and the [Events1.hosts]
    range set last. *)
Definition group_hosts (g : HostGroup) : Z :=
  fold_left (fun acc c =>
               match c with
               | GSet key (VInt n) => if String.eqb key "nrofHosts" then n else acc
               | _ => acc
               end)
            (group_calls g) 0.

Definition declared_hosts (s : ScenarioSettings) : Z :=
  fold_left (fun acc c =>
               match c with
               | AddGroup g => acc + group_hosts g
               | _ => acc
               end)
            (settings_calls s) 0.

Definition setting (key : string) (s : ScenarioSettings) : option value :=
  fold_left (fun acc c =>
               match c with
               | SSet k v => if String.eqb k key then Some v else acc
               | _ => acc
               end)
            (settings_calls s) None.

(** The directory part the file names of a scenario start with. *)
Definition dir_prefix (dir : string) : string :=
  if (String.eqb dir "" || Py.endswith "/" dir)%bool then dir else dir +:+ "/".

(** What [shape_routes] makes of a route name. *)
Definition shape_route_of (paths stops_of : gmap string (list Geo)) (n : string)
    (r : TransitRoute Geo) : Prop :=
  name r = n /\ paths !! n = Some (nodes r) /\ stops_of !! n = Some (stops r)
  /\ first_stop r = None /\ last_stop r = None.

Definition shaped (paths stops_of : gmap string (list Geo)) (n : string) : Prop :=
  is_Some (paths !! n) /\ is_Some (stops_of !! n).

(** Kinds of events. *)
Definition is_settings_write (ev : event Geo Pt Sched Dur P) : bool :=
  match ev with
  | WriteSettings _ _ => true
  | _ => false
  end.

Definition is_mkdir (ev : event Geo Pt Sched Dur P) : bool :=
  match ev with
  | Mkdir _ => true
  | _ => false
  end.

(** The settings keys whose value is a file. *)
Definition is_file_key (key : string) : bool :=
  (String.eqb key "routeFile" || String.eqb key "scheduleFile"
   || String.eqb key "pointFile")%bool.

(** The files a host group refers to: its route file, its schedule file, its
    point file and its map files. *)
Definition group_files (g : HostGroup) : list string :=
  flat_map (fun c => match c with
                     | GSetOkmap f => [f]
                     | GSet key (VStr f) => if is_file_key key then [f] else []
                     | GSet _ (VInt _) => []
                     end)
           (group_calls g).

Definition settings_files (s : ScenarioSettings) : list string :=
  flat_map (fun c => match c with
                     | AddGroup g => group_files g
                     | _ => []
                     end)
           (settings_calls s).

(** The event is a call on the feed reader. *)
Definition is_reader_call (ev : event Geo Pt Sched Dur P) : bool :=
  match ev with
  | LoadFeed _ _ _ | SetRefTrips _ | BuildRefTrips | RouteNames | ShapePaths
  | ShapeStops | BuildSchedule _ _ | TripDurations => true
  | _ => false
  end.

End Main.

(** ** Example scenarios *)

(** A feed with shapes: two tram lines over the same track, in opposite
    directions.  The middle stop lies on a segment of the shape, it is not
    one of its nodes. *)
Module City.

Definition feed : Model.Feed (Z * Z) :=
  {| Model.feed_routes :=
       [ {| Model.fr_name := "M1"; Model.fr_first := "A"; Model.fr_last := "Z";
            Model.fr_stop_count := 3;
            Model.fr_times := [0; 120; 100; 300];
            Model.fr_departures := [21600; 22200] |};
         {| Model.fr_name := "M2"; Model.fr_first := "Z"; Model.fr_last := "A";
            Model.fr_stop_count := 3;
            Model.fr_times := [0; 180; 310];
            Model.fr_departures := [21900] |} ];
     Model.feed_shapes :=
       {[ "M1" := [(0, 0); (4, 0); (4, 3)]; "M2" := [(4, 3); (4, 0); (0, 0)] ]};
     Model.feed_shape_stops :=
       {[ "M1" := [(0, 0); (2, 0); (4, 3)]; "M2" := [(4, 3); (2, 0); (0, 0)] ]} |}.

Definition args : Args :=
  {| gtfs_file := "feeds/city.zip"; osm := None; types := "0";
     weekday := 0; max_exceptions := 180 |}.

Definition env : Env :=
  {| cwd := "/one/toolkit/gtfs"; isdir := fun _ => false |}.

Definition routes : list (TransitRoute (Z * Z)) :=
  [ {| name := "M1"; nodes := [(0, 0); (4, 0); (4, 3)]; stops := [(0, 0); (2, 0); (4, 3)];
       first_stop := None; last_stop := None |};
    {| name := "M2"; nodes := [(4, 3); (4, 0); (0, 0)]; stops := [(4, 3); (2, 0); (0, 0)];
       first_stop := None; last_stop := None |} ].

(** One geographic unit is an eighth of a metre. *)
Definition run : M (Z * Z) (Z * Z) (list Z) (list Z) Model.ProjectorState unit :=
  main (reader_ops := Model.reader feed) (parser_ops := Model.parser [])
       (projector_ops := Model.projector 1 8) Model.ceil_metres env args.

Definition gtfs : Model.Reader (Z * Z) :=
  Model.with_refs (Model.load feed true) (Model.feed_routes feed).

Definition proj : Model.ProjectorState :=
  {| Model.precision := 2;
     Model.frame := Some {| Model.off_x := 0; Model.off_y := 0;
                            Model.width := 50; Model.height := 38 |} |}.

End City.

(** The scenario of the specification, section 8: the map extract has a route
    "12" from A to Z with 8 stops, the feed a route "12" from A to Z with 7
    stops, so that nothing in the feed matches the map route.  The feed also
    carries a shape for its route. *)
Module Crosstown.

Definition feed : Model.Feed (Z * Z) :=
  {| Model.feed_routes :=
       [ {| Model.fr_name := "12"; Model.fr_first := "A"; Model.fr_last := "Z";
            Model.fr_stop_count := 7;
            Model.fr_times := [0; 60; 120; 180; 240; 300; 360];
            Model.fr_departures := [28800] |} ];
     Model.feed_shapes := {[ "12" := [(0, 0); (70, 0)] ]};
     Model.feed_shape_stops :=
       {[ "12" := [(0, 0); (10, 0); (20, 0); (30, 0); (40, 0); (50, 0); (70, 0)] ]} |}.

Definition map_routes : list (TransitRoute (Z * Z)) :=
  [ {| name := "12";
       nodes := [(0, 0); (10, 0); (20, 0); (30, 0); (40, 0); (50, 0); (60, 0); (70, 0)];
       stops := [(0, 0); (10, 0); (20, 0); (30, 0); (40, 0); (50, 0); (60, 0); (70, 0)];
       first_stop := Some "A"; last_stop := Some "Z" |} ].

Definition args : Args :=
  {| gtfs_file := "feeds/city.zip"; osm := Some "city.osm"; types := "0";
     weekday := 0; max_exceptions := 180 |}.

Definition env : Env :=
  {| cwd := "/one/toolkit/gtfs"; isdir := fun _ => true |}.

Definition run : M (Z * Z) (Z * Z) (list Z) (list Z) Model.ProjectorState unit :=
  main (reader_ops := Model.reader feed) (parser_ops := Model.parser map_routes)
       (projector_ops := Model.projector 1 8) Model.ceil_metres env args.

Definition proj : Model.ProjectorState :=
  {| Model.precision := 2;
     Model.frame := Some {| Model.off_x := 0; Model.off_y := 0;
                            Model.width := 875; Model.height := 0 |} |}.

End Crosstown.

(** A feed without routes. *)
Module Empty.

Definition feed : Model.Feed (Z * Z) := Model.empty_feed.

Definition args : Args :=
  {| gtfs_file := "feeds/empty.zip"; osm := None; types := "0";
     weekday := 0; max_exceptions := 180 |}.

Definition env : Env :=
  {| cwd := "/one/toolkit/gtfs"; isdir := fun _ => false |}.

Definition run : M (Z * Z) (Z * Z) (list Z) (list Z) Model.ProjectorState unit :=
  main (reader_ops := Model.reader feed) (parser_ops := Model.parser [])
       (projector_ops := Model.projector 1 8) Model.ceil_metres env args.

End Empty.

(** A feed without shapes, read without a map extract. *)
Module Bare.

Definition feed : Model.Feed (Z * Z) :=
  {| Model.feed_routes :=
       [ {| Model.fr_name := "M1"; Model.fr_first := "A"; Model.fr_last := "Z";
            Model.fr_stop_count := 3;
            Model.fr_times := [0; 120; 300];
            Model.fr_departures := [21600] |} ];
     Model.feed_shapes := ∅;
     Model.feed_shape_stops := ∅ |}.

Definition args : Args :=
  {| gtfs_file := "feeds/bare.zip"; osm := None; types := "0,3";
     weekday := 0; max_exceptions := 180 |}.

Definition env : Env :=
  {| cwd := "/one/toolkit/gtfs"; isdir := fun _ => false |}.

Definition run : M (Z * Z) (Z * Z) (list Z) (list Z) Model.ProjectorState unit :=
  main (reader_ops := Model.reader feed) (parser_ops := Model.parser [])
       (projector_ops := Model.projector 1 8) Model.ceil_metres env args.

End Bare.

(** * Properties *)

(** ** The string and path functions on examples *)

Example split_types : Py.split "," "0,3" = ["0"; "3"].
Proof. reflexivity. Qed.
Example split_default : Py.split "," "0" = ["0"].
Proof. reflexivity. Qed.
Example split_empty : Py.split "," "" = [""].
Proof. reflexivity. Qed.
Example basename_zip : Py.basename "feeds/vbb.zip" = "vbb.zip".
Proof. reflexivity. Qed.
Example splitext_zip : Py.splitext_root "vbb.2019.zip" = "vbb.2019".
Proof. reflexivity. Qed.
Example splitext_hidden : Py.splitext_root ".feed" = ".feed".
Proof. reflexivity. Qed.
Example join_plain : Py.join "/one" "data" = "/one/data".
Proof. reflexivity. Qed.
Example join_root : Py.join "/" "data" = "/data".
Proof. reflexivity. Qed.
Example parent_twice : Py.parent (Py.parent "/one/toolkit/gtfs") = "/one".
Proof. reflexivity. Qed.
Example format_nodes : Py.format "/one/data/vbb/{}_nodes.wkt" "M1" = "/one/data/vbb/M1_nodes.wkt".
Proof. reflexivity. Qed.
Example str_of_int_neg : Py.str_of_int (-1) = "-1".
Proof. reflexivity. Qed.
Example str_of_int_pos : Py.str_of_int 120 = "120".
Proof. reflexivity. Qed.

Section Facts.

Context {Geo Pt Len Sched Dur G P : Type}.
Context `{Countable Geo} `{Countable Pt}.
Context `{reader_ops : !GTFSReader Geo Sched Dur G} `{parser_ops : !OsmRouteParser Geo}
        `{projector_ops : !Projector Geo Pt Len P}.
Context (ceil : Len -> Z).

Local Open Scope run_scope.
Local Abbreviation Run := (M Geo Pt Sched Dur P).

Lemma bind_emit {A} (e : event Geo Pt Sched Dur P) (k : unit -> Run A) :
  bind (emit e) k = (e :: trace (k tt), outcome (k tt)).
Proof. unfold bind, emit, trace, outcome. simpl. destruct (k tt); reflexivity. Qed.

Lemma bind_ret {A B} (a : A) (k : A -> Run B) : bind (ret a) k = k a.
Proof. unfold bind, ret. simpl. destruct (k a); reflexivity. Qed.

Lemma bind_error {A B} (t : list (event Geo Pt Sched Dur P)) (e : error) (k : A -> Run B) :
  bind (t, inl e) k = (t, inl e).
Proof. reflexivity. Qed.

Lemma bind_value {A B} (t : list (event Geo Pt Sched Dur P)) (a : A) (k : A -> Run B) :
  bind (t, inr a) k = (t ++ trace (k a), outcome (k a)).
Proof. unfold bind, trace, outcome. destruct (k a); reflexivity. Qed.

Lemma route_loop env args (proj : P) (durations : gmap string Dur)
    (sched : gmap string Sched) (routes : list (TransitRoute Geo)) st :
  for_each routes
    (route_body proj (Py.join (out_dir env args) NODES_FILE)
                (Py.join (out_dir env args) STOPS_FILE)
                (Py.join (out_dir env args) SCHEDULE_FILE) durations sched) st
  = (flat_map (route_events env args proj durations sched) routes,
     inr {| ls_settings :=
              {| scenario_name := scenario_name (ls_settings st);
                 settings_calls :=
                   settings_calls (ls_settings st) ++
                   map (fun r => AddGroup (route_group env args r)) routes |};
            ls_stations := stations_from proj routes (ls_stations st) |}).
Proof.
  revert st. induction routes as [|r routes IH]; intros st.
  - simpl. rewrite app_nil_r. destruct st as [[sn sc] stn]. reflexivity.
  - cbn [for_each].
    assert (Hbody : forall d1 d2 d3,
      route_body proj d1 d2 d3 durations sched st r
      = ([TransformCoords proj (nodes r);
          TransformCoords proj (stops r);
          WriteWktLinestring (transform_coords proj (nodes r)) (Py.format d1 (name r));
          WriteCsvStops (transform_coords proj (stops r)) (durations !! name r)
                        (Py.format d2 (name r));
          WriteCsvSchedule (sched !! name r) (Py.format d3 (name r))],
         inr {| ls_settings :=
                  settings_do (ls_settings st)
                    (AddGroup
                       (set_okmap
                          (gset_opt (gset_opt (gset_opt (gset_opt (gset_opt
                             (new_group (name r) (Some HOST_ID_DELIM))
                             "movementModel" (VStr "TransitMapMovement"))
                             "routeFile" (VStr (Py.format d2 (name r))))
                             "scheduleFile" (VStr (Py.format d3 (name r))))
                             "routeType" (VInt 2))
                             "nrofHosts" (VInt NR_OF_HOSTS))
                          (Py.format d1 (name r))));
                ls_stations :=
                  ls_stations st ∪ list_to_set (transform_coords proj (stops r)) |}))
      by reflexivity.
    rewrite Hbody, bind_value, IH. cbn [trace outcome fst snd ls_settings ls_stations].
    f_equal. f_equal. f_equal.
    unfold settings_do. cbn [scenario_name settings_calls].
    rewrite <- app_assoc. reflexivity.
Qed.

Lemma main_resolve_error env args t e :
  resolve args = (t, inl e) ->
  main ceil env args = (preamble args ++ t, inl e).
Proof.
  intros Hres. unfold resolve, loaded in Hres. unfold main.
  rewrite !bind_emit, Hres. reflexivity.
Qed.

Lemma main_fit_error env args t routes gtfs :
  resolve args = (t, inr (routes, gtfs)) ->
  init_dimensions (new_projector 2) (nodes_points routes) = None ->
  main ceil env args
  = (preamble args ++ t ++ timing_events args ++ [InitDimensions (nodes_points routes)],
     inl ProjectorError).
Proof.
  intros Hres Hfit. unfold resolve, loaded in Hres. unfold nodes_points in Hfit.
  unfold main. rewrite !bind_emit, Hres, bind_value. cbn [fst snd].
  rewrite ?bind_emit. cbn [trace outcome fst snd]. rewrite ?bind_emit.
  cbn [trace outcome fst snd]. rewrite Hfit. reflexivity.
Qed.

Lemma main_ok env args t routes gtfs proj width height :
  resolve args = (t, inr (routes, gtfs)) ->
  init_dimensions (new_projector 2) (nodes_points routes) = Some (proj, (width, height)) ->
  main ceil env args
  = (preamble args ++ t ++ timing_events args ++ [InitDimensions (nodes_points routes)]
       ++ mkdir_events env args
       ++ [Log "creating ONE scenario and writing files"]
       ++ flat_map (route_events env args proj (trip_durations (fst (timed args gtfs)))
                                 (snd (timed args gtfs))) routes
       ++ [WriteWktPoints (stations_of proj routes) (stations_path env args);
           WriteSettings (final_settings ceil env args routes (stations_of proj routes) width height)
                         (settings_path env args)],
     inr tt).
Proof.
  intros Hres Hfit. unfold resolve, loaded in Hres. unfold nodes_points in Hfit.
  unfold main. rewrite !bind_emit, Hres, bind_value. cbn [fst snd].
  rewrite ?bind_emit. cbn [trace outcome fst snd]. rewrite ?bind_emit.
  cbn [trace outcome fst snd]. rewrite Hfit, bind_ret. cbn [fst snd].
  fold (one_dir env). fold (scenario_of args). fold (out_dir env args).
  assert (Hmk : (if negb (isdir env (out_dir env args))
                 then emit (Mkdir (out_dir env args)) else ret tt : Run unit)
                = (mkdir_events env args, inr tt)).
  { unfold mkdir_events. destruct (isdir env (out_dir env args)); reflexivity. }
  rewrite Hmk, bind_value, bind_emit, route_loop, bind_value.
  cbn [trace outcome fst snd ls_settings ls_stations scenario_name settings_calls].
  unfold emit, new_settings. cbn [fst snd app].
  fold (stations_of proj routes).
  unfold preamble, timing_events, timed. cbn [app].
  unfold bind, settings_do, final_settings.
  cbn [trace outcome fst snd app scenario_name settings_calls].
  rewrite <- ?app_assoc. reflexivity.
Qed.

(** *** Resolving the routes *)

Lemma osm_routes_run (gtfs : G) (osm_file : string) :
  (osm_routes gtfs osm_file : Run _)
  = ([Log "reading route paths from osm file"; OpenOsm osm_file; ParseRoutes;
      SetRefTrips (map (fun r => (name r, first_stop r, last_stop r, length (stops r)))
                       (parse_routes osm_file))],
     inr (parse_routes osm_file,
          set_ref_trips gtfs
            (map (fun r => (name r, first_stop r, last_stop r, length (stops r)))
                 (parse_routes osm_file)))).
Proof. reflexivity. Qed.

Lemma subscript_trace {V} (d : gmap string V) (k : string) :
  trace (subscript d k : Run V) = [].
Proof. unfold subscript. destruct (d !! k); reflexivity. Qed.

Lemma shape_loop_trace (paths stops_of : gmap string (list Geo)) (names : list string)
    (acc : list (TransitRoute Geo)) :
  trace (for_each names
           (fun routes r =>
              p <- subscript paths r ;;
              s <- subscript stops_of r ;;
              (ret (routes ++ [{| name := r; nodes := p; stops := s;
                                  first_stop := None; last_stop := None |}]) : Run _))
           acc) = [].
Proof.
  revert acc. induction names as [|n names IH]; intros acc; [reflexivity|].
  cbn [for_each]. unfold subscript.
  destruct (paths !! n) as [p|]; [|reflexivity].
  destruct (stops_of !! n) as [s|]; [|reflexivity].
  rewrite !bind_ret. apply IH.
Qed.

Lemma shape_routes_trace (gtfs : G) :
  trace (shape_routes gtfs : Run _)
  = [Log "reading route paths from gtfs shapes"; BuildRefTrips; RouteNames;
     ShapePaths; ShapeStops].
Proof.
  unfold shape_routes. rewrite !bind_emit. cbn [trace fst].
  do 5 f_equal.
  match goal with
  | |- context [for_each ?ns ?body ?acc] =>
      pose proof (shape_loop_trace (shape_paths (build_ref_trips gtfs))
                                   (shape_stops (build_ref_trips gtfs)) ns acc) as Hl;
      destruct (for_each ns body acc) as [tl [e|routes]] eqn:Hloop
  end; cbn [trace fst] in Hl; subst tl; reflexivity.
Qed.

Lemma resolve_trace (args : Args) :
  trace (resolve args : Run _)
  = if truthy (osm args)
    then [Log "reading route paths from osm file"; OpenOsm (default "" (osm args));
          ParseRoutes;
          SetRefTrips (map (fun r => (name r, first_stop r, last_stop r, length (stops r)))
                           (parse_routes (default "" (osm args))))]
    else [Log "reading route paths from gtfs shapes"; BuildRefTrips; RouteNames;
          ShapePaths; ShapeStops].
Proof.
  unfold resolve. destruct (truthy (osm args)).
  - rewrite osm_routes_run. reflexivity.
  - apply shape_routes_trace.
Qed.

Lemma resolve_osm (args : Args) :
  truthy (osm args) = true ->
  outcome (resolve args : Run _)
  = inr (parse_routes (default "" (osm args)),
         set_ref_trips (loaded args)
           (map (fun r => (name r, first_stop r, last_stop r, length (stops r)))
                (parse_routes (default "" (osm args))))).
Proof. intros Ht. unfold resolve. rewrite Ht. reflexivity. Qed.

(** *** Sets built by the loops *)

Lemma elem_of_fold_union {A B} `{Countable B} (f : A -> list B) (l : list A)
    (acc : gset B) (x : B) :
  x ∈ fold_left (fun s a => s ∪ list_to_set (f a)) l acc
  <-> x ∈ acc \/ exists a, a ∈ l /\ x ∈ f a.
Proof.
  revert acc. induction l as [|a l IH]; intros acc; cbn [fold_left].
  - split; [auto|]. intros [Hx | (a & Ha & _)]; [done|]. by apply elem_of_nil in Ha.
  - rewrite IH, elem_of_union, elem_of_list_to_set. split.
    + intros [[Hx | Hx] | (b & Hb & Hx)].
      * by left.
      * right. exists a. split; [left|done].
      * right. exists b. split; [by right|done].
    + intros [Hx | (b & Hb & Hx)]; [by left; left|].
      apply elem_of_cons in Hb as [-> | Hb]; [by left; right|].
      right. by exists b.
Qed.

Lemma elem_of_nodes_points (routes : list (TransitRoute Geo)) (p : Geo) :
  p ∈ nodes_points routes <-> exists r, r ∈ routes /\ p ∈ nodes r.
Proof.
  unfold nodes_points. rewrite (elem_of_fold_union nodes).
  split; [intros [Hp | Hp]; [by apply not_elem_of_empty in Hp | done] | by right].
Qed.

Lemma elem_of_referenced_points (routes : list (TransitRoute Geo)) (p : Geo) :
  p ∈ referenced_points routes <-> exists r, r ∈ routes /\ (p ∈ nodes r \/ p ∈ stops r).
Proof.
  unfold referenced_points. rewrite (elem_of_fold_union (fun r => nodes r ++ stops r)).
  split.
  - intros [Hp | (r & Hr & Hp)]; [by apply not_elem_of_empty in Hp|].
    exists r. split; [exact Hr|]. by apply elem_of_app in Hp.
  - intros (r & Hr & Hp). right. exists r. split; [exact Hr|]. by apply elem_of_app.
Qed.

(** When the stops of every route are among its nodes, the nodes are all the
    points the routes refer to. *)
Lemma nodes_points_all_referenced (routes : list (TransitRoute Geo)) :
  (forall r p, r ∈ routes -> p ∈ stops r -> p ∈ nodes r) ->
  nodes_points routes = referenced_points routes.
Proof.
  intros Hsub. apply set_eq. intros p.
  rewrite elem_of_nodes_points, elem_of_referenced_points.
  split; intros (r & Hr & Hp); exists r; (split; [exact Hr|]).
  - by left.
  - destruct Hp as [Hp | Hp]; [exact Hp|]. by apply (Hsub r).
Qed.

Lemma elem_of_stations_of (proj : P) (routes : list (TransitRoute Geo)) (q : Pt) :
  q ∈ stations_of proj routes
  <-> exists r, r ∈ routes /\ q ∈ transform_coords proj (stops r).
Proof.
  unfold stations_of, stations_from.
  rewrite (elem_of_fold_union (fun r => transform_coords proj (stops r))).
  split; [intros [Hq | Hq]; [by apply not_elem_of_empty in Hq | done] | by right].
Qed.

(** *** Walking a run by cases *)

Ltac run_cases env args :=
  let t := fresh "t" in
  let e := fresh "e" in
  let routes := fresh "routes" in
  let gtfs := fresh "gtfs" in
  let proj := fresh "proj" in
  let w := fresh "w" in
  let h := fresh "h" in
  let Hres := fresh "Hres" in
  let Hfit := fresh "Hfit" in
  destruct (resolve args : M Geo Pt Sched Dur P _) as [t [e | [routes gtfs]]] eqn:Hres;
  [ rewrite (main_resolve_error env args t e Hres)
  | destruct (init_dimensions (new_projector 2) (nodes_points routes))
      as [[proj [w h]]|] eqn:Hfit;
    [ rewrite (main_ok env args t routes gtfs proj w h Hres Hfit)
    | rewrite (main_fit_error env args t routes gtfs Hres Hfit) ] ].

Lemma Forall_flat_map {A B} (Q : B -> Prop) (f : A -> list B) (l : list A) :
  (forall a, a ∈ l -> Forall Q (f a)) -> Forall Q (flat_map f l).
Proof.
  induction l as [|a l IH]; intros Hf; cbn [flat_map]; [constructor|].
  apply Forall_app. split.
  - apply Hf. left.
  - apply IH. intros b Hb. apply Hf. by right.
Qed.

Lemma existsb_false_Forall {A} (f : A -> bool) (l : list A) :
  Forall (fun a => f a = false) l -> existsb f l = false.
Proof.
  induction 1 as [|a l Ha _ IH]; [reflexivity|]. cbn. by rewrite Ha, IH.
Qed.

(** The events of the route loop are transforms and file writes. *)
Lemma route_events_quiet env args (proj : P) (durations : gmap string Dur)
    (sched : gmap string Sched) (routes : list (TransitRoute Geo)) :
  Forall (fun e => is_fit e = false /\ reads_map_extract e = false
                   /\ reads_shapes e = false)
         (flat_map (route_events env args proj durations sched) routes).
Proof.
  apply Forall_flat_map. intros r _. unfold route_events.
  repeat constructor.
Qed.

(** Resolving the routes fits nothing, transforms nothing, writes nothing. *)
Lemma resolve_quiet (args : Args) :
  Forall (fun e => is_fit e = false /\ is_transform e = false /\ is_output e = false)
         (trace (resolve args : Run _)).
Proof.
  rewrite resolve_trace. destruct (truthy (osm args)); repeat constructor.
Qed.

Lemma mkdir_events_quiet env args :
  Forall (fun e : event Geo Pt Sched Dur P =>
            is_fit e = false /\ is_transform e = false
            /\ reads_map_extract e = false /\ reads_shapes e = false)
         (mkdir_events env args).
Proof.
  unfold mkdir_events. destruct (isdir env (out_dir env args)); repeat constructor.
Qed.

(** Every run starts with loading the feed and resolving the routes; what
    follows reads no geometry source any more. *)
Lemma main_trace_sources env args :
  exists rest,
    trace (main ceil env args) = preamble args ++ trace (resolve args : Run _) ++ rest
    /\ Forall (fun e => reads_map_extract e = false /\ reads_shapes e = false) rest.
Proof.
  run_cases env args; cbn [trace fst].
  - exists []. rewrite app_nil_r. split; [reflexivity|constructor].
  - eexists. split; [reflexivity|].
    repeat (apply Forall_cons; split; [by split|]).
    apply Forall_app. split.
    { eapply Forall_impl; [apply mkdir_events_quiet|].
      intros e' (_ & _ & Hm & Hs). by split. }
    apply Forall_cons. split; [by split|].
    apply Forall_app. split.
    { eapply Forall_impl; [apply route_events_quiet|].
      intros e' (_ & Hm & Hs). by split. }
    repeat constructor.
  - eexists. split; [reflexivity|]. repeat constructor.
Qed.

(** C3, as amended: the two geometry sources are mutually exclusive and the
    choice follows the [--osm] argument, not the content of the feed: the
    map extract is read exactly when [args.osm] is given and non-empty, the
    shapes of the feed are read exactly when it is not, and the feed is
    loaded with [with_shapes = not args.osm]. *)
Theorem geometry_source_follows_osm_argument env args :
  used_map_extract (trace (main ceil env args)) = truthy (osm args)
  /\ used_shapes (trace (main ceil env args)) = negb (truthy (osm args))
  /\ In (LoadFeed (gtfs_file args) (Py.split "," (types args)) (negb (truthy (osm args))))
        (trace (main ceil env args)).
Proof.
  destruct (main_trace_sources env args) as (rest & -> & Hrest).
  unfold used_map_extract, used_shapes. rewrite !existsb_app.
  rewrite (existsb_false_Forall reads_map_extract rest)
    by (eapply Forall_impl; [exact Hrest|]; by intros e' [Hm _]).
  rewrite (existsb_false_Forall reads_shapes rest)
    by (eapply Forall_impl; [exact Hrest|]; by intros e' [_ Hs]).
  rewrite resolve_trace.
  split; [|split].
  - destruct (truthy (osm args)); reflexivity.
  - destruct (truthy (osm args)); reflexivity.
  - apply in_or_app. left. right. left. reflexivity.
Qed.

Lemma resolve_trace_of (args : Args) t (r : error + list (TransitRoute Geo) * G) :
  (resolve args : Run _) = (t, r) -> t = trace (resolve args : Run _).
Proof. intros ->. reflexivity. Qed.

Lemma route_events_in env args (proj : P) (durations : gmap string Dur)
    (sched : gmap string Sched) (routes : list (TransitRoute Geo)) r e :
  r ∈ routes ->
  In e (route_events env args proj durations sched r) ->
  In e (flat_map (route_events env args proj durations sched) routes).
Proof.
  intros Hr He. apply in_flat_map. exists r. split; [|exact He].
  by apply list_elem_of_In.
Qed.

(** C1, as amended: the projection frame is fitted at most once per run and
    exactly once in a run that resolves its routes, over the set of all
    nodes of the routes' geometries (a stop is in that set only if it is a
    node of some geometry, so the set holds every referenced point when the
    stops of every route are among its nodes), after the routes are resolved
    and before any coordinate is transformed; every coordinate transform of
    the run, of route geometry and of stops, and with them the station
    points, uses the projector state that one fit returned.  The scenario
    directory is taken free of braces, the paths the run formats being
    joined to it. *)
Theorem frame_fitted_once_over_route_nodes env args :
  Py.brace_free (out_dir env args) = true ->
  match (resolve args : Run _) with
  | (_, inl _) =>
      Forall (fun e => is_fit e = false /\ is_transform e = false)
             (trace (main ceil env args))
  | (t, inr (routes, _)) =>
      exists post,
        trace (main ceil env args)
        = (preamble args ++ t ++ timing_events args)
            ++ InitDimensions (nodes_points routes) :: post
        /\ Forall (fun e => is_fit e = false /\ is_transform e = false)
                  (preamble args ++ t ++ timing_events args)
        /\ Forall (fun e => is_fit e = false) post
        /\ (forall p, p ∈ nodes_points routes <-> exists r, r ∈ routes /\ p ∈ nodes r)
        /\ ((forall r p, r ∈ routes -> p ∈ stops r -> p ∈ nodes r) ->
            nodes_points routes = referenced_points routes)
        /\ match init_dimensions (new_projector 2) (nodes_points routes) with
           | None => post = []
           | Some (proj, _) =>
               Forall (fun e => match e with
                                | TransformCoords p _ => p = proj
                                | _ => True
                                end) post
               /\ (forall r, r ∈ routes ->
                     In (WriteWktLinestring (transform_coords proj (nodes r))
                                            (nodes_path env args (name r))) post
                     /\ exists d,
                         In (WriteCsvStops (transform_coords proj (stops r)) d
                                           (stops_path env args (name r))) post)
               /\ exists stations,
                   In (WriteWktPoints stations (stations_path env args)) post
                   /\ forall q, q ∈ stations
                                <-> exists r, r ∈ routes /\ q ∈ transform_coords proj (stops r)
           end
  end.
Proof.
  intros _.
  assert (Hpre : forall t r, (resolve args : Run _) = (t, r) ->
            Forall (fun e : event Geo Pt Sched Dur P =>
                      is_fit e = false /\ is_transform e = false)
                   (preamble args ++ t ++ timing_events args)).
  { intros t r Hr. apply resolve_trace_of in Hr. subst t.
    apply Forall_app. split; [repeat constructor|].
    apply Forall_app. split; [|repeat constructor].
    eapply Forall_impl; [apply resolve_quiet|]. intros e' (Hf & Ht & _). by split. }
  run_cases env args; cbn [trace fst].
  - apply Forall_app. split; [repeat constructor|].
    apply resolve_trace_of in Hres. subst t.
    eapply Forall_impl; [apply resolve_quiet|]. intros e' (Hf & Ht & _). by split.
  - eexists. split; [|split; [|split; [|split; [|split]]]].
    + rewrite <- !app_assoc. cbn [app]. reflexivity.
    + eapply Hpre. reflexivity.
    + apply Forall_app. split.
      { eapply Forall_impl; [apply mkdir_events_quiet|]. by intros e' (Hf & _). }
      apply Forall_cons. split; [reflexivity|].
      apply Forall_app. split; [|repeat constructor].
      eapply Forall_impl; [apply route_events_quiet|]. by intros e' (Hf & _).
    + apply elem_of_nodes_points.
    + apply nodes_points_all_referenced.
    + split; [|split].
      * apply Forall_app. split.
        { unfold mkdir_events. destruct (isdir env (out_dir env args)); repeat constructor. }
        apply Forall_cons. split; [exact I|].
        apply Forall_app. split; [|repeat constructor].
        apply Forall_flat_map. intros r _. unfold route_events. repeat constructor.
      * intros r Hr. split; [|eexists]; apply in_or_app; right; right;
          apply in_or_app; left; (eapply route_events_in; [exact Hr|]);
          unfold route_events; cbn; eauto.
      * exists (stations_of proj routes). split; [|apply elem_of_stations_of].
        apply in_or_app. right. right. apply in_or_app. right. left. reflexivity.
  - eexists. split; [|split; [|split; [|split; [|split]]]].
    + rewrite <- !app_assoc. cbn [app]. reflexivity.
    + eapply Hpre. reflexivity.
    + constructor.
    + apply elem_of_nodes_points.
    + apply nodes_points_all_referenced.
    + reflexivity.
Qed.

(** *** File names *)

Lemma str_app_cons (x : ascii) (a b : string) : String x a +:+ b = String x (a +:+ b).
Proof. reflexivity. Qed.

Lemma str_app_assoc (a b c : string) : (a +:+ b) +:+ c = a +:+ b +:+ c.
Proof.
  induction a as [|x a IH]; [reflexivity|]. rewrite !str_app_cons. by rewrite IH.
Qed.

Lemma chars_app (a b : string) :
  list_ascii_of_string (a +:+ b) = list_ascii_of_string a ++ list_ascii_of_string b.
Proof.
  induction a as [|x a IH]; [reflexivity|]. rewrite str_app_cons. cbn. by rewrite IH.
Qed.

Lemma chars_inj (a b : string) :
  list_ascii_of_string a = list_ascii_of_string b -> a = b.
Proof.
  intros Hab. rewrite <- (string_of_list_ascii_of_string a),
    <- (string_of_list_ascii_of_string b). by rewrite Hab.
Qed.

Lemma str_app_inv_tail (a b s : string) : a +:+ s = b +:+ s -> a = b.
Proof.
  intros Hab. apply chars_inj. apply (f_equal list_ascii_of_string) in Hab.
  rewrite !chars_app in Hab. by apply app_inv_tail in Hab.
Qed.

Lemma str_app_inv_head (a x y : string) : a +:+ x = a +:+ y -> x = y.
Proof.
  induction a as [|c a IH]; [done|]. rewrite !str_app_cons. intros [= Hxy]. by apply IH.
Qed.

(** Two names that end in different suffixes of the same length differ. *)
Lemma suffix_neq (a b t1 t2 : string) :
  length (list_ascii_of_string t1) = length (list_ascii_of_string t2) ->
  t1 <> t2 ->
  a +:+ t1 <> b +:+ t2.
Proof.
  intros Hlen Hne Hab. apply (f_equal list_ascii_of_string) in Hab.
  rewrite !chars_app in Hab. apply app_inj_2 in Hab as [_ Ht]; [|exact Hlen].
  by apply chars_inj in Ht.
Qed.

Lemma join_relative (a b : string) :
  Py.startswith "/" b = false -> Py.join a b = dir_prefix a +:+ b.
Proof.
  intros Hb. unfold Py.join, dir_prefix. rewrite Hb.
  destruct (String.eqb a "" || Py.endswith "/" a)%bool; [reflexivity|].
  by rewrite str_app_assoc.
Qed.

Lemma join_ends_with (a b : string) : exists pre, Py.join a b = pre +:+ b.
Proof.
  unfold Py.join. destruct (Py.startswith "/" b); [by exists ""|].
  destruct (String.eqb a "" || Py.endswith "/" a)%bool; [by exists a|].
  exists (a +:+ "/"). by rewrite str_app_assoc.
Qed.

Lemma brace_free_app (a b : string) :
  Py.brace_free (a +:+ b) = (Py.brace_free a && Py.brace_free b)%bool.
Proof.
  induction a as [|c a IH]; [reflexivity|]. rewrite str_app_cons.
  cbn [Py.brace_free]. rewrite IH. by rewrite !andb_assoc.
Qed.

Lemma brace_free_dir_prefix (dir : string) :
  Py.brace_free dir = true -> Py.brace_free (dir_prefix dir) = true.
Proof.
  intros Hd. unfold dir_prefix.
  destruct (String.eqb dir "" || Py.endswith "/" dir)%bool; [exact Hd|].
  rewrite brace_free_app, Hd. reflexivity.
Qed.

(** Formatting leaves a directory part without braces as it is. *)
Lemma format_prefix (a t n : string) :
  Py.brace_free a = true -> Py.format (a +:+ t) n = a +:+ Py.format t n.
Proof.
  induction a as [|c a IH]; intros Ha; [reflexivity|].
  cbn [Py.brace_free] in Ha.
  apply andb_prop in Ha as [Hc Ha]. apply andb_prop in Hc as [Hc _].
  apply negb_true_iff in Hc.
  change (String c a +:+ t) with (String c (a +:+ t)).
  change (String c a +:+ Py.format t n) with (String c (a +:+ Py.format t n)).
  rewrite <- (IH Ha). cbn [Py.format]. rewrite Hc. cbn [andb].
  destruct (a +:+ t) as [|d rest] eqn:Hat; [reflexivity|reflexivity].
Qed.

Lemma route_file_name (dir template n : string) :
  Py.brace_free dir = true ->
  Py.startswith "/" template = false ->
  Py.format (Py.join dir template) n = dir_prefix dir +:+ Py.format template n.
Proof.
  intros Hd Ht. rewrite join_relative by exact Ht.
  apply format_prefix, brace_free_dir_prefix, Hd.
Qed.

Lemma flat_map_names {A} (F : string -> list A) (routes : list (TransitRoute Geo)) :
  flat_map (fun r => F (name r)) routes = flat_map F (map name routes).
Proof. induction routes as [|r routes IH]; cbn; [reflexivity|]. by rewrite IH. Qed.

(** Three injective naming schemes with disjoint ranges, and two further
    names outside of them: the files are pairwise distinct exactly when the
    names are. *)
Lemma NoDup_files (f1 f2 f3 : string -> string) (s1 s2 : string) (names : list string) :
  (forall a b, f1 a = f1 b -> a = b) ->
  (forall a b, f2 a = f2 b -> a = b) ->
  (forall a b, f3 a = f3 b -> a = b) ->
  (forall a b, f1 a <> f2 b) -> (forall a b, f1 a <> f3 b) -> (forall a b, f2 a <> f3 b) ->
  (forall a, f1 a <> s1 /\ f2 a <> s1 /\ f3 a <> s1) ->
  (forall a, f1 a <> s2 /\ f2 a <> s2 /\ f3 a <> s2) ->
  s1 <> s2 ->
  NoDup (flat_map (fun n => [f1 n; f2 n; f3 n]) names ++ [s1; s2]) <-> NoDup names.
Proof.
  intros I1 I2 I3 D12 D13 D23 S1 S2 S12.
  assert (Hin : forall x l,
    In x (flat_map (fun n => [f1 n; f2 n; f3 n]) l ++ [s1; s2])
    <-> (exists n, In n l /\ (x = f1 n \/ x = f2 n \/ x = f3 n)) \/ x = s1 \/ x = s2).
  { intros x l. rewrite in_app_iff, in_flat_map. cbn. split.
    - intros [(n & Hn & Hx) | Hx]; [left; exists n | right]; intuition congruence.
    - intros [(n & Hn & Hx) | Hx]; [left; exists n | right]; intuition congruence. }
  induction names as [|n names IH].
  - cbn. split; [constructor|]. intros _.
    rewrite !NoDup_cons, !list_elem_of_In. cbn.
    split; [intuition congruence|]. split; [tauto|constructor].
  - cbn [flat_map app].
    rewrite !NoDup_cons, !list_elem_of_In, IH. cbn [In]. rewrite !Hin.
    split.
    + intros (Hf1 & Hf2 & Hf3 & Hnd). split; [|exact Hnd].
      intros Hn. apply Hf1. right. right. left. exists n. auto.
    + intros (Hn & Hnd).
      pose proof (S1 n) as (? & ? & ?). pose proof (S2 n) as (? & ? & ?).
      repeat split; try exact Hnd.
      * intros [Hx | [Hx | [(m & Hm & Hx) | [Hx | Hx]]]].
        -- by apply (D12 n n).
        -- by apply (D13 n n).
        -- destruct Hx as [Hx | [Hx | Hx]].
           ++ apply I1 in Hx. by subst m.
           ++ by apply (D12 n m).
           ++ by apply (D13 n m).
        -- congruence.
        -- congruence.
      * intros [Hx | [(m & Hm & Hx) | [Hx | Hx]]].
        -- by apply (D23 n n).
        -- destruct Hx as [Hx | [Hx | Hx]].
           ++ by apply (D12 m n).
           ++ apply I2 in Hx. by subst m.
           ++ by apply (D23 n m).
        -- congruence.
        -- congruence.
      * intros [(m & Hm & Hx) | [Hx | Hx]].
        -- destruct Hx as [Hx | [Hx | Hx]].
           ++ by apply (D13 m n).
           ++ by apply (D23 m n).
           ++ apply I3 in Hx. by subst m.
        -- congruence.
        -- congruence.
Qed.

Lemma written_files_app (t1 t2 : list (event Geo Pt Sched Dur P)) :
  written_files (t1 ++ t2) = written_files t1 ++ written_files t2.
Proof. apply omap_app. Qed.

Lemma written_files_quiet (t : list (event Geo Pt Sched Dur P)) :
  Forall (fun e => written_file e = None) t -> written_files t = [].
Proof.
  induction 1 as [|e t He _ IH]; [reflexivity|].
  unfold written_files in *. cbn [omap list_omap]. by rewrite IH, He.
Qed.

Lemma no_output_no_file (e : event Geo Pt Sched Dur P) :
  is_output e = false -> written_file e = None.
Proof. destruct e; cbn; intros He; try discriminate; reflexivity. Qed.

Lemma written_files_route_events env args (proj : P) (durations : gmap string Dur)
    (sched : gmap string Sched) (routes : list (TransitRoute Geo)) :
  written_files (flat_map (route_events env args proj durations sched) routes)
  = flat_map (fun r => route_files env args (name r)) routes.
Proof.
  induction routes as [|r routes IH]; [reflexivity|].
  cbn [flat_map]. rewrite written_files_app, IH. reflexivity.
Qed.

Lemma resolve_no_output (args : Args) :
  Forall (fun e => is_output e = false) (trace (resolve args : Run _)).
Proof.
  eapply Forall_impl; [apply resolve_quiet|]. by intros e (_ & _ & Ho).
Qed.

Lemma resolve_no_file (args : Args) :
  Forall (fun e => written_file e = None) (trace (resolve args : Run _)).
Proof.
  eapply Forall_impl; [apply resolve_no_output|]. apply no_output_no_file.
Qed.

(** The files of a run that reaches the writers, in the order written. *)
Lemma written_files_main_ok env args t routes gtfs proj w h :
  (resolve args : Run _) = (t, inr (routes, gtfs)) ->
  init_dimensions (new_projector 2) (nodes_points routes) = Some (proj, (w, h)) ->
  written_files (trace (main ceil env args))
  = flat_map (fun r => route_files env args (name r)) routes
      ++ [stations_path env args; settings_path env args].
Proof.
  intros Hres Hfit. rewrite (main_ok env args t routes gtfs proj w h Hres Hfit).
  cbn [trace fst]. rewrite !written_files_app, written_files_route_events.
  rewrite (written_files_quiet (preamble args)) by repeat constructor.
  apply resolve_trace_of in Hres. subst t.
  rewrite (written_files_quiet (trace (resolve args))) by apply resolve_no_file.
  rewrite (written_files_quiet (timing_events args)) by repeat constructor.
  rewrite (written_files_quiet (mkdir_events env args)); [reflexivity|].
  unfold mkdir_events. destruct (isdir env (out_dir env args)); repeat constructor.
Qed.

Lemma nodes_path_name env args n :
  Py.brace_free (out_dir env args) = true ->
  nodes_path env args n = dir_prefix (out_dir env args) +:+ n +:+ "_nodes.wkt".
Proof. intros Hd. unfold nodes_path. by rewrite route_file_name. Qed.

Lemma stops_path_name env args n :
  Py.brace_free (out_dir env args) = true ->
  stops_path env args n = dir_prefix (out_dir env args) +:+ n +:+ "_stops.csv".
Proof. intros Hd. unfold stops_path. by rewrite route_file_name. Qed.

Lemma schedule_path_name env args n :
  Py.brace_free (out_dir env args) = true ->
  schedule_path env args n = dir_prefix (out_dir env args) +:+ n +:+ "_schedule.csv".
Proof. intros Hd. unfold schedule_path. by rewrite route_file_name. Qed.

Lemma stations_path_name env args :
  stations_path env args = dir_prefix (out_dir env args) +:+ "stations.wkt".
Proof. unfold stations_path. by rewrite join_relative. Qed.

Lemma settings_path_name env args :
  exists pre, settings_path env args = pre +:+ "_settings.txt".
Proof.
  unfold settings_path.
  destruct (join_ends_with (one_dir env) (scenario_of args +:+ "_settings.txt")) as [pre ->].
  exists (pre +:+ scenario_of args). by rewrite str_app_assoc.
Qed.

(** [differ a b t1 t2] proves [x <> y] when [x] is [a +:+ t1], [y] is
    [b +:+ t2], and [t1], [t2] are different literals of one length. *)
Ltac differ a b t1 t2 :=
  let Heq := fresh "Heq" in
  intros Heq;
  apply (suffix_neq a b t1 t2); [reflexivity | discriminate |];
  rewrite ?str_app_assoc; exact Heq.

(** C8: a run that reaches the writers writes, for every route of the final
    route set, one nodes file, one stops file and one schedule file, named
    after the route in the scenario directory, then one stations file and
    one settings file; the names are a function of the route name alone, and
    the files written are pairwise distinct exactly when the route names
    are. *)
Theorem one_file_set_per_route env args t routes gtfs proj w h :
  (resolve args : Run _) = (t, inr (routes, gtfs)) ->
  init_dimensions (new_projector 2) (nodes_points routes) = Some (proj, (w, h)) ->
  Py.brace_free (out_dir env args) = true ->
  written_files (trace (main ceil env args))
  = flat_map (fun r => [dir_prefix (out_dir env args) +:+ name r +:+ "_nodes.wkt";
                        dir_prefix (out_dir env args) +:+ name r +:+ "_stops.csv";
                        dir_prefix (out_dir env args) +:+ name r +:+ "_schedule.csv"])
             routes
      ++ [dir_prefix (out_dir env args) +:+ "stations.wkt"; settings_path env args]
  /\ (NoDup (written_files (trace (main ceil env args))) <-> NoDup (map name routes)).
Proof.
  intros Hres Hfit Hd.
  assert (Hfiles : written_files (trace (main ceil env args))
    = flat_map (fun n => [dir_prefix (out_dir env args) +:+ n +:+ "_nodes.wkt";
                          dir_prefix (out_dir env args) +:+ n +:+ "_stops.csv";
                          dir_prefix (out_dir env args) +:+ n +:+ "_schedule.csv"])
               (map name routes)
        ++ [dir_prefix (out_dir env args) +:+ "stations.wkt"; settings_path env args]).
  { rewrite (written_files_main_ok env args t routes gtfs proj w h Hres Hfit).
    rewrite (flat_map_names (route_files env args)), stations_path_name. f_equal.
    apply flat_map_ext. intros n. unfold route_files.
    by rewrite nodes_path_name, stops_path_name, schedule_path_name. }
  split.
  - rewrite Hfiles. f_equal. symmetry.
    apply (flat_map_names
             (fun n => [dir_prefix (out_dir env args) +:+ n +:+ "_nodes.wkt";
                        dir_prefix (out_dir env args) +:+ n +:+ "_stops.csv";
                        dir_prefix (out_dir env args) +:+ n +:+ "_schedule.csv"])).
  - rewrite Hfiles. destruct (settings_path_name env args) as [pre ->].
    set (D := dir_prefix (out_dir env args)).
    apply NoDup_files.
    + intros a b Hab. apply str_app_inv_head in Hab. by apply str_app_inv_tail in Hab.
    + intros a b Hab. apply str_app_inv_head in Hab. by apply str_app_inv_tail in Hab.
    + intros a b Hab. apply str_app_inv_head in Hab. by apply str_app_inv_tail in Hab.
    + intros a b. differ (D +:+ a) (D +:+ b) "_nodes.wkt" "_stops.csv".
    + intros a b. differ (D +:+ a) (D +:+ b +:+ "_sc") "_nodes.wkt" "hedule.csv".
    + intros a b. differ (D +:+ a) (D +:+ b +:+ "_sc") "_stops.csv" "hedule.csv".
    + intros a. split; [|split].
      * differ (D +:+ a) (D +:+ "st") "_nodes.wkt" "ations.wkt".
      * differ (D +:+ a) (D +:+ "st") "_stops.csv" "ations.wkt".
      * differ (D +:+ a +:+ "_schedule.") (D +:+ "stations.") "csv" "wkt".
    + intros a. split; [|split].
      * differ (D +:+ a +:+ "_nodes.") (pre +:+ "_settings.") "wkt" "txt".
      * differ (D +:+ a +:+ "_stops.") (pre +:+ "_settings.") "csv" "txt".
      * differ (D +:+ a +:+ "_schedule.") (pre +:+ "_settings.") "csv" "txt".
    + differ (D +:+ "stations.") (pre +:+ "_settings.") "wkt" "txt".
Qed.

(** *** Hosts and stations *)

Lemma group_hosts_route env args (r : TransitRoute Geo) :
  group_hosts (route_group env args r) = NR_OF_HOSTS.
Proof. reflexivity. Qed.

Lemma group_hosts_station env args (stations : gset Pt) :
  group_hosts (station_group env args stations) = Z.of_nat (size stations).
Proof. reflexivity. Qed.

Lemma declared_hosts_routes env args (routes : list (TransitRoute Geo)) (rest : list settings_call)
    (acc : Z) :
  fold_left (fun acc c => match c with
                          | AddGroup g => acc + group_hosts g
                          | _ => acc
                          end)
            (map (fun r => AddGroup (route_group env args r)) routes ++ rest) acc
  = fold_left (fun acc c => match c with
                            | AddGroup g => acc + group_hosts g
                            | _ => acc
                            end)
              rest (acc + Z.of_nat (length routes) * NR_OF_HOSTS).
Proof.
  revert acc. induction routes as [|r routes IH]; intros acc.
  - cbn. f_equal. lia.
  - cbn [map app fold_left length]. rewrite IH, group_hosts_route. f_equal.
    unfold NR_OF_HOSTS. lia.
Qed.

Lemma setting_routes env args (key : string) (routes : list (TransitRoute Geo))
    (rest : list settings_call) (acc : option value) :
  fold_left (fun acc c => match c with
                          | SSet k v => if String.eqb k key then Some v else acc
                          | _ => acc
                          end)
            (map (fun r => AddGroup (route_group env args r)) routes ++ rest) acc
  = fold_left (fun acc c => match c with
                            | SSet k v => if String.eqb k key then Some v else acc
                            | _ => acc
                            end)
              rest acc.
Proof. induction routes as [|r routes IH]; [reflexivity|]. exact IH. Qed.

Lemma declared_hosts_final env args (routes : list (TransitRoute Geo)) (stations : gset Pt)
    (w h : Len) :
  declared_hosts (final_settings ceil env args routes stations w h)
  = Z.of_nat (length routes) * NR_OF_HOSTS + Z.of_nat (size stations).
Proof.
  unfold declared_hosts, final_settings. cbn [settings_calls].
  rewrite declared_hosts_routes. cbn [fold_left]. by rewrite group_hosts_station.
Qed.

Lemma hosts_setting_final env args (routes : list (TransitRoute Geo)) (stations : gset Pt)
    (w h : Len) :
  setting "Events1.hosts" (final_settings ceil env args routes stations w h)
  = Some (VStr ("0," +:+ Py.str_of_int (hosts_max routes stations))).
Proof.
  unfold setting, final_settings. cbn [settings_calls].
  rewrite setting_routes. reflexivity.
Qed.

Lemma world_setting_final env args (routes : list (TransitRoute Geo)) (stations : gset Pt)
    (w h : Len) :
  setting "MovementModel.worldSize" (final_settings ceil env args routes stations w h)
  = Some (VStr (Py.str_of_int (ceil w) +:+ ", " +:+ Py.str_of_int (ceil h))).
Proof.
  unfold setting, final_settings. cbn [settings_calls].
  rewrite setting_routes. reflexivity.
Qed.

Lemma write_settings_in env args t routes gtfs proj w h :
  (resolve args : Run _) = (t, inr (routes, gtfs)) ->
  init_dimensions (new_projector 2) (nodes_points routes) = Some (proj, (w, h)) ->
  In (WriteSettings (final_settings ceil env args routes (stations_of proj routes) w h)
                    (settings_path env args))
     (trace (main ceil env args)).
Proof.
  intros Hres Hfit. rewrite (main_ok env args t routes gtfs proj w h Hres Hfit).
  cbn [trace fst]. rewrite !in_app_iff. do 7 right. right. by left.
Qed.

Lemma write_points_in env args t routes gtfs proj w h :
  (resolve args : Run _) = (t, inr (routes, gtfs)) ->
  init_dimensions (new_projector 2) (nodes_points routes) = Some (proj, (w, h)) ->
  In (WriteWktPoints (stations_of proj routes) (stations_path env args))
     (trace (main ceil env args)).
Proof.
  intros Hres Hfit. rewrite (main_ok env args t routes gtfs proj w h Hres Hfit).
  cbn [trace fst]. rewrite !in_app_iff. do 7 right. by left.
Qed.

(** C9: in a run that reaches the writers, with a scenario directory free
    of braces, the host address range put in the settings file starts at 0
    and ends at the number of hosts the groups declare, less one: every route group declares [NR_OF_HOSTS = 1] hosts,
    the station group one host per distinct station point, so the range ends
    at [len(routes) * NR_OF_HOSTS + len(stations) - 1]. *)
Theorem host_range_spans_declared_hosts env args t routes gtfs proj w h :
  Py.brace_free (out_dir env args) = true ->
  (resolve args : Run _) = (t, inr (routes, gtfs)) ->
  init_dimensions (new_projector 2) (nodes_points routes) = Some (proj, (w, h)) ->
  exists s,
    In (WriteSettings s (settings_path env args)) (trace (main ceil env args))
    /\ setting "Events1.hosts" s
       = Some (VStr ("0," +:+ Py.str_of_int (declared_hosts s - 1)))
    /\ declared_hosts s
       = Z.of_nat (length routes) * NR_OF_HOSTS + Z.of_nat (size (stations_of proj routes))
    /\ NR_OF_HOSTS = 1
    /\ (forall r, r ∈ routes ->
          In (AddGroup (route_group env args r)) (settings_calls s)
          /\ group_hosts (route_group env args r) = NR_OF_HOSTS)
    /\ In (AddGroup (station_group env args (stations_of proj routes))) (settings_calls s)
    /\ group_hosts (station_group env args (stations_of proj routes))
       = Z.of_nat (size (stations_of proj routes)).
Proof.
  intros _.
  intros Hres Hfit.
  exists (final_settings ceil env args routes (stations_of proj routes) w h).
  split; [by eapply write_settings_in|].
  rewrite declared_hosts_final, hosts_setting_final.
  split; [reflexivity|]. split; [reflexivity|]. split; [reflexivity|].
  split; [|split; [|reflexivity]].
  - intros r Hr. split; [|reflexivity].
    unfold final_settings. cbn [settings_calls]. apply in_or_app. left.
    apply in_map_iff. exists r. split; [reflexivity|]. by apply list_elem_of_In.
  - unfold final_settings. cbn [settings_calls]. apply in_or_app. right. by left.
Qed.

Lemma stations_of_list (proj : P) (routes : list (TransitRoute Geo)) :
  stations_of proj routes
  = list_to_set (concat (map (fun r => transform_coords proj (stops r)) routes)).
Proof.
  apply set_eq. intros q. rewrite elem_of_stations_of, elem_of_list_to_set.
  rewrite <- flat_map_concat_map, list_elem_of_In, in_flat_map.
  split; intros (r & Hr & Hq); exists r.
  - by rewrite <- !list_elem_of_In.
  - by rewrite !list_elem_of_In.
Qed.

Lemma route_events_no_points env args (proj : P) (durations : gmap string Dur)
    (sched : gmap string Sched) (routes : list (TransitRoute Geo)) :
  omap (fun e : event Geo Pt Sched Dur P =>
          match e with
          | WriteWktPoints points _ => Some points
          | _ => None
          end) (flat_map (route_events env args proj durations sched) routes) = [].
Proof.
  induction routes as [|r rs IH]; [reflexivity|].
  cbn [flat_map]. rewrite omap_app, IH. reflexivity.
Qed.

Lemma write_points_once env args t routes gtfs proj w h :
  (resolve args : Run _) = (t, inr (routes, gtfs)) ->
  init_dimensions (new_projector 2) (nodes_points routes) = Some (proj, (w, h)) ->
  omap (fun e => match e with
                 | WriteWktPoints points _ => Some points
                 | _ => None
                 end) (trace (main ceil env args))
  = [stations_of proj routes].
Proof.
  intros Hres Hfit. rewrite (main_ok env args t routes gtfs proj w h Hres Hfit).
  cbn [trace fst]. rewrite !omap_app, route_events_no_points.
  apply resolve_trace_of in Hres. subst t. rewrite resolve_trace.
  unfold mkdir_events.
  destruct (truthy (osm args)), (isdir env (out_dir env args)); reflexivity.
Qed.

(** C10: in a run that reaches the writers, with a scenario directory free
    of braces, the stations file receives a set of projected coordinates,
    and is written once: a coordinate is in it exactly when some stop of
    some route projects to it, and is listed once however many stops and
    routes share it; the station group declares as many hosts as there are distinct
    projected stop coordinates. *)
Theorem stations_deduplicated_by_coordinate env args t routes gtfs proj w h :
  Py.brace_free (out_dir env args) = true ->
  (resolve args : Run _) = (t, inr (routes, gtfs)) ->
  init_dimensions (new_projector 2) (nodes_points routes) = Some (proj, (w, h)) ->
  exists (stations : gset Pt) s,
    omap (fun e => match e with
                   | WriteWktPoints points _ => Some points
                   | _ => None
                   end) (trace (main ceil env args)) = [stations]
    /\ In (WriteWktPoints stations (stations_path env args)) (trace (main ceil env args))
    /\ (forall q, q ∈ elements stations
                  <-> exists r, r ∈ routes /\ q ∈ transform_coords proj (stops r))
    /\ NoDup (elements stations)
    /\ size stations
       = length (remove_dups
                   (concat (map (fun r => transform_coords proj (stops r)) routes)))
    /\ In (WriteSettings s (settings_path env args)) (trace (main ceil env args))
    /\ In (AddGroup (station_group env args stations)) (settings_calls s)
    /\ group_hosts (station_group env args stations) = Z.of_nat (size stations).
Proof.
  intros _.
  intros Hres Hfit.
  exists (stations_of proj routes),
         (final_settings ceil env args routes (stations_of proj routes) w h).
  split; [by eapply write_points_once|].
  split; [by eapply write_points_in|].
  split; [intros q; rewrite elem_of_elements; apply elem_of_stations_of|].
  split; [apply NoDup_elements|].
  split.
  - rewrite stations_of_list.
    set (l := concat (map (fun r => transform_coords proj (stops r)) routes)).
    assert (Hl : (list_to_set l : gset Pt) = list_to_set (remove_dups l)).
    { apply set_eq. intros q. by rewrite !elem_of_list_to_set, elem_of_remove_dups. }
    rewrite Hl. apply size_list_to_set, NoDup_remove_dups.
  - split; [by eapply write_settings_in|]. split; [|reflexivity].
    unfold final_settings. cbn [settings_calls]. apply in_or_app. right. by left.
Qed.

(** *** Reconciliation mode *)

(** C2, as amended: in reconciliation mode the route set of the run is the
    list of routes parsed from the map extract, matched by the feed or not.
    When the fit succeeds and the scenario directory is free of braces, the
    run completes, and every parsed route gets its host group and its three
    files; the stops file and the schedule file carry what the feed's
    duration and schedule tables hold under the route's name, which is nothing when the feed has no entry for it. *)
Theorem map_routes_all_written env args proj w h :
  Py.brace_free (out_dir env args) = true ->
  truthy (osm args) = true ->
  init_dimensions (new_projector 2) (nodes_points (parse_routes (default "" (osm args))))
  = Some (proj, (w, h)) ->
  let routes := parse_routes (default "" (osm args)) in
  let gtfs :=
    set_ref_trips (loaded args)
      (map (fun r => (name r, first_stop r, last_stop r, length (stops r))) routes) in
  let durations := trip_durations (fst (timed args gtfs)) in
  let sched := snd (timed args gtfs) in
  outcome (main ceil env args) = inr tt
  /\ written_files (trace (main ceil env args))
     = flat_map (fun r => route_files env args (name r)) routes
         ++ [stations_path env args; settings_path env args]
  /\ exists s,
       In (WriteSettings s (settings_path env args)) (trace (main ceil env args))
       /\ forall r, r ∈ routes ->
            In (AddGroup (route_group env args r)) (settings_calls s)
            /\ In (WriteWktLinestring (transform_coords proj (nodes r))
                                      (nodes_path env args (name r)))
                  (trace (main ceil env args))
            /\ In (WriteCsvStops (transform_coords proj (stops r)) (durations !! name r)
                                 (stops_path env args (name r)))
                  (trace (main ceil env args))
            /\ In (WriteCsvSchedule (sched !! name r) (schedule_path env args (name r)))
                  (trace (main ceil env args)).
Proof.
  intros _.
  intros Ht Hfit routes gtfs durations sched.
  assert (Hres : (resolve args : Run _) = (trace (resolve args : Run _), inr (routes, gtfs))).
  { pose proof (resolve_osm args Ht) as Ho.
    destruct (resolve args) as [t' o']. cbn [outcome trace fst snd] in *.
    by subst o'. }
  split; [|split].
  - by rewrite (main_ok env args _ routes gtfs proj w h Hres Hfit).
  - by eapply written_files_main_ok.
  - exists (final_settings ceil env args routes (stations_of proj routes) w h).
    split; [by eapply write_settings_in|].
    intros r Hr. split.
    { unfold final_settings. cbn [settings_calls]. apply in_or_app. left.
      apply in_map_iff. exists r. split; [reflexivity|]. by apply list_elem_of_In. }
    rewrite (main_ok env args _ routes gtfs proj w h Hres Hfit). cbn [trace fst].
    rewrite !in_app_iff.
    split; [|split]; do 6 right; left;
      (eapply route_events_in; [exact Hr|]); unfold route_events; cbn; auto 6.
Qed.

(** A run that fails has written nothing and created no directory. *)
Lemma failed_run_no_output env args e :
  outcome (main ceil env args) = inl e ->
  Forall (fun ev => is_output ev = false) (trace (main ceil env args)).
Proof.
  run_cases env args; cbn [trace outcome fst snd]; intros He; [|discriminate|].
  - apply Forall_app. split; [repeat constructor|].
    apply resolve_trace_of in Hres. subst t. apply resolve_no_output.
  - apply Forall_app. split; [repeat constructor|].
    apply Forall_app. split; [|repeat constructor].
    apply resolve_trace_of in Hres. subst t. apply resolve_no_output.
Qed.

(** The durations a stops file is written with are those the feed reader holds
    under the name of a route of the run. *)
Lemma written_durations env args c d f :
  In (WriteCsvStops c d f) (trace (main ceil env args)) ->
  exists t routes gtfs r,
    (resolve args : Run _) = (t, inr (routes, gtfs))
    /\ r ∈ routes
    /\ d = trip_durations (fst (timed args gtfs)) !! name r.
Proof.
  assert (Hno : forall l : list (event Geo Pt Sched Dur P),
            Forall (fun e => written_file e = None) l -> ~ In (WriteCsvStops c d f) l).
  { intros l Hl Hin. rewrite List.Forall_forall in Hl. by apply Hl in Hin. }
  assert (Hnor : ~ In (WriteCsvStops c d f) (trace (resolve args : Run _))).
  { apply Hno, resolve_no_file. }
  run_cases env args; cbn [trace fst]; rewrite !in_app_iff;
    apply resolve_trace_of in Hres as Ht; cbn [trace fst] in Hnor.
  - intros [Hin | Hin]; [|by subst t]. exfalso. revert Hin. apply Hno. repeat constructor.
  - intros [Hin | [Hin | [Hin | [Hin | [Hin | [Hin | [Hin | Hin]]]]]]].
    + exfalso. revert Hin. apply Hno. repeat constructor.
    + by subst t.
    + exfalso. revert Hin. apply Hno. repeat constructor.
    + exfalso. revert Hin. apply Hno. repeat constructor.
    + exfalso. revert Hin. apply Hno. unfold mkdir_events.
      destruct (isdir env (out_dir env args)); repeat constructor.
    + exfalso. revert Hin. apply Hno. repeat constructor.
    + apply in_flat_map in Hin as (r & Hr & Hin).
      exists t, routes, gtfs, r. split; [reflexivity|].
      split; [by apply list_elem_of_In|].
      unfold route_events in Hin. cbn in Hin.
      destruct Hin as [Hin | [Hin | [Hin | [Hin | [Hin | []]]]]]; try discriminate.
      by injection Hin as _ <- _.
    + exfalso. cbn in Hin. destruct Hin as [Hin | [Hin | []]]; discriminate.
  - intros [Hin | [Hin | [Hin | Hin]]].
    + exfalso. revert Hin. apply Hno. repeat constructor.
    + by subst t.
    + exfalso. revert Hin. apply Hno. repeat constructor.
    + exfalso. revert Hin. apply Hno. repeat constructor.
Qed.

(** The reader state after resolving: the loaded feed with its reference
    trips set from the map routes, or built from the feed itself. *)
Lemma resolve_state args t routes gtfs :
  (resolve args : Run _) = (t, inr (routes, gtfs)) ->
  gtfs = if truthy (osm args)
         then set_ref_trips (loaded args)
                (map (fun r => (name r, first_stop r, last_stop r, length (stops r)))
                     (parse_routes (default "" (osm args))))
         else build_ref_trips (loaded args).
Proof.
  unfold resolve. destruct (truthy (osm args)).
  - rewrite osm_routes_run. by intros [= _ _ <-].
  - unfold shape_routes. rewrite !bind_emit. cbn [trace outcome fst snd].
    match goal with
    | |- context [for_each ?ns ?body ?acc] =>
        destruct (for_each ns body acc) as [tl [e|rs]]
    end; cbn; [discriminate|]. by intros [= _ _ <-].
Qed.

(** The outcome of a run: the failure of the resolution, or of the fit, or
    completion. *)
Lemma main_outcome env args :
  outcome (main ceil env args)
  = match routes_of (outcome (resolve args : Run _)) with
    | inl e => inl e
    | inr routes =>
        match init_dimensions (new_projector 2) (nodes_points routes) with
        | Some _ => inr tt
        | None => inl ProjectorError
        end
    end.
Proof.
  run_cases env args; cbn [outcome snd routes_of]; [reflexivity| |].
  - by rewrite Hfit.
  - by rewrite Hfit.
Qed.

Lemma shape_loop_outcome (paths stops_of : gmap string (list Geo)) (names : list string)
    (acc : list (TransitRoute Geo)) :
  outcome (for_each names
             (fun routes r =>
                p <- subscript paths r ;;
                s <- subscript stops_of r ;;
                (ret (routes ++ [{| name := r; nodes := p; stops := s;
                                    first_stop := None; last_stop := None |}]) : Run _))
             acc)
  = build_routes paths stops_of names acc.
Proof.
  revert acc. induction names as [|n names IH]; intros acc; [reflexivity|].
  cbn [for_each build_routes]. unfold subscript.
  destruct (paths !! n) as [p|]; [|reflexivity].
  destruct (stops_of !! n) as [s|]; [|reflexivity].
  rewrite !bind_ret. apply IH.
Qed.

(** The routes [resolve] gives depend on the reader only through the route
    names and the shape tables it holds once its reference trips are built. *)
Lemma resolve_routes (args : Args) :
  routes_of (outcome (resolve args : Run _))
  = if truthy (osm args)
    then inr (parse_routes (default "" (osm args)))
    else build_routes (shape_paths (build_ref_trips (loaded args)))
                      (shape_stops (build_ref_trips (loaded args)))
                      (route_names (build_ref_trips (loaded args))) [].
Proof.
  unfold resolve. destruct (truthy (osm args)); [reflexivity|].
  unfold shape_routes. rewrite !bind_emit. cbn [outcome snd].
  match goal with
  | |- context [for_each ?ns ?body ?acc] =>
      pose proof (shape_loop_outcome (shape_paths (build_ref_trips (loaded args)))
                                     (shape_stops (build_ref_trips (loaded args))) ns acc)
        as Hl;
      destruct (for_each ns body acc) as [tl [e|rs]]
  end; cbn [outcome snd] in Hl; rewrite <- Hl; reflexivity.
Qed.

End Facts.

(** ** The modelled collaborators *)

(** *** Duration estimator *)

Lemma estimate_step (t1 t2 : Z) (rest : list Z) :
  Model.estimate (t1 :: t2 :: rest)
  = if t2 <? t1
    then (0 :: Model.durations_of (t2 :: rest),
          Model.NonMonotonic t1 t2 :: Model.reports_of (t2 :: rest))
    else (t2 - t1 :: Model.durations_of (t2 :: rest), Model.reports_of (t2 :: rest)).
Proof.
  unfold Model.durations_of, Model.reports_of.
  change (Model.estimate (t1 :: t2 :: rest))
    with (let '(ds, rs) := Model.estimate (t2 :: rest) in
          if t2 <? t1 then (0 :: ds, Model.NonMonotonic t1 t2 :: rs)
          else (t2 - t1 :: ds, rs)).
  destruct (Model.estimate (t2 :: rest)) as [ds rs]. reflexivity.
Qed.

Lemma durations_of_step (t1 t2 : Z) (rest : list Z) :
  Model.durations_of (t1 :: t2 :: rest)
  = (if t2 <? t1 then 0 else t2 - t1) :: Model.durations_of (t2 :: rest).
Proof.
  unfold Model.durations_of at 1. rewrite estimate_step. by destruct (t2 <? t1).
Qed.

Lemma reports_of_step (t1 t2 : Z) (rest : list Z) :
  Model.reports_of (t1 :: t2 :: rest)
  = if t2 <? t1
    then Model.NonMonotonic t1 t2 :: Model.reports_of (t2 :: rest)
    else Model.reports_of (t2 :: rest).
Proof.
  unfold Model.reports_of at 1. rewrite estimate_step. by destruct (t2 <? t1).
Qed.

Lemma durations_nonneg (times : list Z) :
  Forall (fun d => 0 <= d) (Model.durations_of times).
Proof.
  induction times as [|t1 [|t2 rest] IH]; [constructor|constructor|].
  rewrite durations_of_step. constructor; [|exact IH].
  destruct (Z.ltb_spec t2 t1); lia.
Qed.

Lemma durations_length (times : list Z) :
  length (Model.durations_of times) = (length times - 1)%nat.
Proof.
  induction times as [|t1 [|t2 rest] IH]; [reflexivity|reflexivity|].
  rewrite durations_of_step. cbn [length] in *. rewrite IH. lia.
Qed.

Lemma durations_lookup (times : list Z) (i : nat) (t1 t2 : Z) :
  times !! i = Some t1 ->
  times !! S i = Some t2 ->
  Model.durations_of times !! i = Some (if t2 <? t1 then 0 else t2 - t1).
Proof.
  revert i. induction times as [|a [|b rest] IH]; intros i H1 H2; [done| |].
  - destruct i; done.
  - rewrite durations_of_step. destruct i as [|i].
    + cbn in H1, H2. injection H1 as ->. injection H2 as ->. reflexivity.
    + cbn [lookup list_lookup] in H1, H2. exact (IH i H1 H2).
Qed.

Lemma reports_complete (times : list Z) (i : nat) (t1 t2 : Z) :
  times !! i = Some t1 ->
  times !! S i = Some t2 ->
  t2 < t1 ->
  In (Model.NonMonotonic t1 t2) (Model.reports_of times).
Proof.
  revert i. induction times as [|a [|b rest] IH]; intros i H1 H2 Hlt; [done| |].
  - destruct i; done.
  - rewrite reports_of_step. destruct i as [|i].
    + cbn in H1, H2. injection H1 as ->. injection H2 as ->.
      destruct (Z.ltb_spec t2 t1); [|lia]. by left.
    + cbn [lookup list_lookup] in H1, H2.
      destruct (b <? a); [right|]; exact (IH i H1 H2 Hlt).
Qed.

Lemma last_default (l : list Z) (x d d' : Z) :
  List.last (x :: l) d = List.last (x :: l) d'.
Proof.
  revert x. induction l as [|y l IH]; intros x; [reflexivity|].
  change (List.last (y :: l) d = List.last (y :: l) d'). apply IH.
Qed.

(** A trip whose timestamps never go back yields no report, and durations
    that add up to its elapsed time. *)
Lemma durations_monotone_sum (t0 : Z) (times : list Z) :
  (forall i a b, (t0 :: times) !! i = Some a -> (t0 :: times) !! S i = Some b -> a <= b) ->
  Model.reports_of (t0 :: times) = []
  /\ fold_right Z.add 0 (Model.durations_of (t0 :: times)) = List.last times t0 - t0.
Proof.
  revert t0. induction times as [|t1 rest IH]; intros t0 Hmono.
  - split; [reflexivity|]. cbn. lia.
  - rewrite reports_of_step, durations_of_step.
    assert (H01 : t0 <= t1) by exact (Hmono 0%nat t0 t1 eq_refl eq_refl).
    destruct (Z.ltb_spec t1 t0); [lia|]. cbn [fold_right].
    destruct (IH t1) as [Hr Hs].
    { intros i a b Ha Hb. exact (Hmono (S i) a b Ha Hb). }
    split; [exact Hr|]. rewrite Hs.
    destruct rest as [|t2 rest']; [cbn; lia|].
    change (List.last (t1 :: t2 :: rest') t0) with (List.last (t2 :: rest') t0).
    rewrite (last_default rest' t2 t1 t0). lia.
Qed.

(** *** Runs over the modelled feed reader *)

Section ReaderFacts.

Context {Geo Pt Len P : Type}.
Context `{Countable Geo} `{Countable Pt}.
Context `{parser_ops : !OsmRouteParser Geo} `{projector_ops : !Projector Geo Pt Len P}.
Context (ceil : Len -> Z) (feed : Model.Feed Geo).

Local Abbreviation feed_main := (main (reader_ops := Model.reader feed) ceil).
Local Abbreviation feed_resolve := (resolve (reader_ops := Model.reader feed)).

Lemma table_lookup {V} (f : Model.FeedRoute -> V) (refs : list Model.FeedRoute)
    (n : string) (v : V) :
  Model.table f refs !! n = Some v -> exists fr, In fr refs /\ v = f fr.
Proof.
  unfold Model.table. intros Hn. apply elem_of_list_to_map_2 in Hn.
  apply list_elem_of_In, in_map_iff in Hn as (fr & [= _ <-] & Hfr). by exists fr.
Qed.

Lemma refs_of_feed args t routes gtfs :
  (feed_resolve args : M Geo Pt (list Z) (list Z) P _) = (t, inr (routes, gtfs)) ->
  forall fr, In fr (Model.rd_refs gtfs) -> In fr (Model.feed_routes feed).
Proof.
  intros Hres fr. apply (resolve_state (reader_ops := Model.reader feed)) in Hres.
  subst gtfs. unfold loaded. cbn.
  destruct (truthy (osm args)); cbn.
  - rewrite <- !list_elem_of_In, list_elem_of_filter. by intros [_ Hfr].
  - done.
Qed.

Lemma retime_names (times : Model.FeedRoute -> list Z) :
  map Model.fr_name (Model.feed_routes (Model.retime times feed))
  = map Model.fr_name (Model.feed_routes feed).
Proof. unfold Model.retime. cbn. rewrite map_map. reflexivity. Qed.

(** Whether a run completes, and how it fails if it does not, does not depend
    on the timestamps of the feed. *)
Lemma outcome_retime (times : Model.FeedRoute -> list Z) env args :
  outcome (main (reader_ops := Model.reader (Model.retime times feed)) ceil env args)
  = outcome (feed_main env args).
Proof.
  rewrite (main_outcome (reader_ops := Model.reader (Model.retime times feed))).
  rewrite (main_outcome (reader_ops := Model.reader feed)).
  rewrite (resolve_routes (reader_ops := Model.reader (Model.retime times feed))).
  rewrite (resolve_routes (reader_ops := Model.reader feed)).
  unfold loaded. destruct (truthy (osm args)) eqn:Ht; [reflexivity|].
  cbn -[Model.retime map]. rewrite retime_names. reflexivity.
Qed.

(** C5: every duration the estimator produces is non-negative, one per
    consecutive stop pair; a pair of timestamps that goes back in time gets
    the duration zero and is reported, any other pair gets its difference,
    and the estimator returns for every trip; the durations a run writes to
    a stops file are those of a route of the feed, hence non-negative; and
    the outcome of the run is the same whatever the timestamps are, so no
    timestamp makes it abort. *)
Theorem durations_nonnegative_clamped_reported env args :
  (forall times,
      Forall (fun d => 0 <= d) (Model.durations_of times)
      /\ length (Model.durations_of times) = (length times - 1)%nat)
  /\ (forall times i t1 t2,
        times !! i = Some t1 -> times !! S i = Some t2 ->
        (t2 < t1 ->
           Model.durations_of times !! i = Some 0
           /\ In (Model.NonMonotonic t1 t2) (Model.reports_of times))
        /\ (t1 <= t2 -> Model.durations_of times !! i = Some (t2 - t1)))
  /\ (forall c ds f,
        In (WriteCsvStops c (Some ds) f) (trace (feed_main env args)) ->
        Forall (fun d => 0 <= d) ds
        /\ exists fr, In fr (Model.feed_routes feed)
                      /\ ds = Model.durations_of (Model.fr_times fr))
  /\ (forall times,
        outcome (main (reader_ops := Model.reader (Model.retime times feed)) ceil env args)
        = outcome (feed_main env args)).
Proof.
  split; [|split; [|split]].
  - intros times. split; [apply durations_nonneg | apply durations_length].
  - intros times i t1 t2 H1 H2.
    pose proof (durations_lookup times i t1 t2 H1 H2) as Hd.
    split; intros Hlt.
    + split; [|by eapply reports_complete].
      destruct (Z.ltb_spec t2 t1); [exact Hd|lia].
    + destruct (Z.ltb_spec t2 t1); [lia|exact Hd].
  - intros c ds f Hin.
    apply (written_durations (reader_ops := Model.reader feed)) in Hin
      as (t & routes & gtfs & r & Hres & _ & Hd).
    cbn in Hd. symmetry in Hd. apply table_lookup in Hd as (fr & Hfr & ->).
    split; [apply durations_nonneg|].
    exists fr. split; [|reflexivity]. by eapply refs_of_feed.
  - intros times. apply outcome_retime.
Qed.

End ReaderFacts.

(** *** Runs over the modelled projector *)

Lemma minimum_le (x : Z) (l : list Z) (y : Z) : In y (x :: l) -> Model.minimum x l <= y.
Proof.
  revert x. induction l as [|z l IH]; intros x; cbn [Model.minimum].
  - intros [-> | []]. lia.
  - intros [-> | Hy]; [lia|]. specialize (IH z Hy). lia.
Qed.

Lemma minimum_in (x : Z) (l : list Z) : In (Model.minimum x l) (x :: l).
Proof.
  revert x. induction l as [|z l IH]; intros x; cbn [Model.minimum]; [by left|].
  destruct (Z.min_spec x (Model.minimum z l)) as [[_ ->] | [_ ->]]; [by left|].
  right. apply IH.
Qed.

Lemma maximum_ge (x : Z) (l : list Z) (y : Z) : In y (x :: l) -> y <= Model.maximum x l.
Proof.
  revert x. induction l as [|z l IH]; intros x; cbn [Model.maximum].
  - intros [-> | []]. lia.
  - intros [-> | Hy]; [lia|]. specialize (IH z Hy). lia.
Qed.

Lemma maximum_in (x : Z) (l : list Z) : In (Model.maximum x l) (x :: l).
Proof.
  revert x. induction l as [|z l IH]; intros x; cbn [Model.maximum]; [by left|].
  destruct (Z.max_spec x (Model.maximum z l)) as [[_ ->] | [_ ->]]; [|by left].
  right. apply IH.
Qed.

Lemma to_plane_zero (num den : positive) (prec : Z) : Model.to_plane num den prec 0 = 0.
Proof. unfold Model.to_plane. apply Z.div_small. lia. Qed.

Lemma to_plane_mono (num den : positive) (prec d1 d2 : Z) :
  d1 <= d2 -> Model.to_plane num den prec d1 <= Model.to_plane num den prec d2.
Proof.
  intros Hd. unfold Model.to_plane. apply Z.div_le_mono; [lia|].
  assert (Hp : 0 <= 10 ^ prec) by (apply Z.pow_nonneg; lia).
  assert (Hk : 0 <= Z.pos num * 10 ^ prec) by (apply Z.mul_nonneg_nonneg; lia).
  pose proof (Z.mul_le_mono_nonneg_r d1 d2 (Z.pos num * 10 ^ prec) Hk Hd). lia.
Qed.

Lemma ceil_metres_bounds (l : Z) :
  100 * (Model.ceil_metres l - 1) < l <= 100 * Model.ceil_metres l.
Proof.
  unfold Model.ceil_metres.
  pose proof (Z.div_mod (- l) 100 ltac:(lia)).
  pose proof (Z.mod_pos_bound (- l) 100 ltac:(lia)). lia.
Qed.

Lemma fit_empty (num den : positive) (prec : Z) : Model.fit num den prec ∅ = None.
Proof. unfold Model.fit. by rewrite elements_empty. Qed.

(** The frame fitted over a non-empty set: the projected points lie between
    0 and the width and height, and the four bounds are attained. *)
Lemma fit_bounds (num den : positive) (prec : Z) (points : gset (Z * Z)) :
  points <> ∅ ->
  exists f,
    Model.fit num den prec points = Some f
    /\ (forall p, p ∈ points ->
          0 <= fst (Model.apply num den prec f p) <= Model.width f
          /\ 0 <= snd (Model.apply num den prec f p) <= Model.height f)
    /\ (exists p, p ∈ points /\ fst (Model.apply num den prec f p) = 0)
    /\ (exists p, p ∈ points /\ snd (Model.apply num den prec f p) = 0)
    /\ (exists p, p ∈ points /\ fst (Model.apply num den prec f p) = Model.width f)
    /\ (exists p, p ∈ points /\ snd (Model.apply num den prec f p) = Model.height f).
Proof.
  intros Hne. unfold Model.fit.
  destruct (elements points) as [|p0 ps] eqn:Hel.
  { apply elements_empty_inv in Hel. by apply leibniz_equiv in Hel. }
  eexists. split; [reflexivity|].
  assert (Hmem : forall p, p ∈ points <-> In p (p0 :: ps)).
  { intros p. by rewrite <- Hel, <- list_elem_of_In, elem_of_elements. }
  assert (Hfst : forall p, p ∈ points -> In (fst p) (fst p0 :: map fst ps)).
  { intros p Hp. apply Hmem in Hp. change (In (fst p) (map fst (p0 :: ps))).
    by apply in_map. }
  assert (Hsnd : forall p, p ∈ points -> In (snd p) (snd p0 :: map snd ps)).
  { intros p Hp. apply Hmem in Hp. change (In (snd p) (map snd (p0 :: ps))).
    by apply in_map. }
  assert (Hpre : forall (g : Z * Z -> Z) v, In v (g p0 :: map g ps) ->
            exists p, p ∈ points /\ g p = v).
  { intros g v Hv. change (In v (map g (p0 :: ps))) in Hv.
    apply in_map_iff in Hv as (p & <- & Hp). exists p. split; [by apply Hmem|done]. }
  unfold Model.apply. cbn [Model.off_x Model.off_y Model.width Model.height fst snd].
  split; [|split; [|split; [|split]]].
  - intros p Hp.
    pose proof (minimum_le _ _ _ (Hfst p Hp)). pose proof (maximum_ge _ _ _ (Hfst p Hp)).
    pose proof (minimum_le _ _ _ (Hsnd p Hp)). pose proof (maximum_ge _ _ _ (Hsnd p Hp)).
    rewrite <- (to_plane_zero num den prec).
    repeat split; apply to_plane_mono; lia.
  - destruct (Hpre fst _ (minimum_in (fst p0) (map fst ps))) as (p & Hp & Hx).
    exists p. split; [exact Hp|]. rewrite Hx, Z.sub_diag. apply to_plane_zero.
  - destruct (Hpre snd _ (minimum_in (snd p0) (map snd ps))) as (p & Hp & Hy).
    exists p. split; [exact Hp|]. rewrite Hy, Z.sub_diag. apply to_plane_zero.
  - destruct (Hpre fst _ (maximum_in (fst p0) (map fst ps))) as (p & Hp & Hx).
    exists p. split; [exact Hp|]. by rewrite Hx.
  - destruct (Hpre snd _ (maximum_in (snd p0) (map snd ps))) as (p & Hp & Hy).
    exists p. split; [exact Hp|]. by rewrite Hy.
Qed.

Section ProjectorFacts.

Context {Sched Dur G : Type}.
Context `{reader_ops : !GTFSReader (Z * Z) Sched Dur G}
        `{parser_ops : !OsmRouteParser (Z * Z)}.
Context (num den : positive).

Local Abbreviation plane_main :=
  (main (projector_ops := Model.projector num den) Model.ceil_metres).
Local Abbreviation plane_resolve :=
  (resolve : Args -> M (Z * Z) (Z * Z) Sched Dur Model.ProjectorState _).
Local Abbreviation plane_fit :=
  (init_dimensions (Projector := Model.projector num den)
     (new_projector (Projector := Model.projector num den) 2)).

(** C7: when no route survives resolution, or the routes have no point to
    project, fitting the frame fails, the run ends with that failure, and
    nothing has been written: no route file, no stations file, no settings
    file, and no scenario directory. *)
Theorem no_points_is_fatal env args t routes gtfs :
  plane_resolve args = (t, inr (routes, gtfs)) ->
  routes = [] \/ nodes_points routes = ∅ ->
  outcome (plane_main env args) = inl ProjectorError
  /\ Forall (fun e => is_output e = false) (trace (plane_main env args))
  /\ written_files (trace (plane_main env args)) = [].
Proof.
  intros Hres Hnone.
  assert (Hpts : nodes_points routes = ∅) by (destruct Hnone as [-> | Hp]; done).
  assert (Hfit : plane_fit (nodes_points routes) = None).
  { rewrite Hpts. cbn. by rewrite fit_empty. }
  assert (Hout : outcome (plane_main env args) = inl ProjectorError).
  { by rewrite (main_fit_error (projector_ops := Model.projector num den)
                  Model.ceil_metres env args t routes gtfs Hres Hfit). }
  pose proof (failed_run_no_output (projector_ops := Model.projector num den)
                Model.ceil_metres env args _ Hout) as Hquiet.
  split; [exact Hout|]. split; [exact Hquiet|].
  apply written_files_quiet. eapply Forall_impl; [exact Hquiet|].
  apply no_output_no_file.
Qed.

(** C6, as amended: after fitting over a non-empty point set, in a run with
    a scenario directory free of braces, the projected points of the fitted
    set have minimum x and minimum y exactly 0 and maximum x and y equal to
    the bounding width and height the fit returns;
    the world size put in the settings is the pair of the ceilings of that
    width and height, each at least the bound and less than one metre above
    it. *)
Theorem projection_bounds_and_world_size env args t routes gtfs :
  Py.brace_free (out_dir env args) = true ->
  plane_resolve args = (t, inr (routes, gtfs)) ->
  nodes_points routes <> ∅ ->
  exists f s,
    plane_fit (nodes_points routes)
    = Some ({| Model.precision := 2; Model.frame := Some f |},
            (Model.width f, Model.height f))
    /\ (forall p, p ∈ nodes_points routes ->
          0 <= fst (Model.apply num den 2 f p) <= Model.width f
          /\ 0 <= snd (Model.apply num den 2 f p) <= Model.height f)
    /\ (exists p, p ∈ nodes_points routes /\ fst (Model.apply num den 2 f p) = 0)
    /\ (exists p, p ∈ nodes_points routes /\ snd (Model.apply num den 2 f p) = 0)
    /\ (exists p, p ∈ nodes_points routes
                  /\ fst (Model.apply num den 2 f p) = Model.width f)
    /\ (exists p, p ∈ nodes_points routes
                  /\ snd (Model.apply num den 2 f p) = Model.height f)
    /\ (forall r, r ∈ routes ->
          In (WriteWktLinestring (map (Model.apply num den 2 f) (nodes r))
                                 (nodes_path env args (name r)))
             (trace (plane_main env args)))
    /\ In (WriteSettings s (settings_path env args)) (trace (plane_main env args))
    /\ setting "MovementModel.worldSize" s
       = Some (VStr (Py.str_of_int (Model.ceil_metres (Model.width f)) +:+ ", "
                     +:+ Py.str_of_int (Model.ceil_metres (Model.height f))))
    /\ 100 * (Model.ceil_metres (Model.width f) - 1) < Model.width f
       <= 100 * Model.ceil_metres (Model.width f)
    /\ 100 * (Model.ceil_metres (Model.height f) - 1) < Model.height f
       <= 100 * Model.ceil_metres (Model.height f).
Proof.
  intros _.
  intros Hres Hne.
  destruct (fit_bounds num den 2 (nodes_points routes) Hne)
    as (f & Hf & Hin & Hx0 & Hy0 & Hxw & Hyh).
  assert (Hfit : plane_fit (nodes_points routes)
                 = Some ({| Model.precision := 2; Model.frame := Some f |},
                         (Model.width f, Model.height f))).
  { cbn. by rewrite Hf. }
  exists f.
  exists (final_settings Model.ceil_metres env args routes
            (stations_of (projector_ops := Model.projector num den)
               {| Model.precision := 2; Model.frame := Some f |} routes)
            (Model.width f) (Model.height f)).
  split; [exact Hfit|].
  do 5 (split; [assumption|]).
  split; [|split; [|split; [|split]]].
  - intros r Hr.
    rewrite (main_ok (projector_ops := Model.projector num den)
               Model.ceil_metres env args t routes gtfs _ _ _ Hres Hfit).
    cbn [trace fst]. rewrite !in_app_iff. do 6 right. left.
    eapply route_events_in; [exact Hr|]. unfold route_events. cbn. auto.
  - by eapply (write_settings_in (projector_ops := Model.projector num den)).
  - apply world_setting_final.
  - apply ceil_metres_bounds.
  - apply ceil_metres_bounds.
Qed.

End ProjectorFacts.

(** ** The scenarios, run *)

Lemma city_resolved :
  resolve (reader_ops := Model.reader City.feed) (parser_ops := Model.parser []) City.args
  = (trace (resolve (reader_ops := Model.reader City.feed) (parser_ops := Model.parser [])
              City.args
            : M (Z * Z) (Z * Z) (list Z) (list Z) Model.ProjectorState _),
     inr (City.routes, City.gtfs)).
Proof. vm_compute. reflexivity. Defined.

Lemma city_fitted :
  init_dimensions (Projector := Model.projector 1 8)
    (new_projector (Projector := Model.projector 1 8) 2) (nodes_points City.routes)
  = Some (City.proj, (50, 38)).
Proof. vm_compute. reflexivity. Defined.

Lemma crosstown_fitted :
  init_dimensions (Projector := Model.projector 1 8)
    (new_projector (Projector := Model.projector 1 8) 2)
    (nodes_points (parse_routes (OsmRouteParser := Model.parser Crosstown.map_routes)
                                (default "" (osm Crosstown.args))))
  = Some (Crosstown.proj, (875, 0)).
Proof. vm_compute. reflexivity. Defined.

Lemma empty_resolved :
  resolve (reader_ops := Model.reader Empty.feed) (parser_ops := Model.parser []) Empty.args
  = (trace (resolve (reader_ops := Model.reader Empty.feed) (parser_ops := Model.parser [])
              Empty.args
            : M (Z * Z) (Z * Z) (list Z) (list Z) Model.ProjectorState _),
     inr ([], Model.with_refs (Model.load Empty.feed true) [])).
Proof. vm_compute. reflexivity. Defined.

Lemma city_brace_free : Py.brace_free (out_dir City.env City.args) = true.
Proof. reflexivity. Defined.

Lemma crosstown_brace_free : Py.brace_free (out_dir Crosstown.env Crosstown.args) = true.
Proof. reflexivity. Defined.

Lemma empty_brace_free : Py.brace_free (out_dir Empty.env Empty.args) = true.
Proof. reflexivity. Defined.

Lemma bare_brace_free : Py.brace_free (out_dir Bare.env Bare.args) = true.
Proof. reflexivity. Defined.

(** C1, the claim as stated fails: in the city scenario the stop (2, 0) of
    both lines is referenced by the routes but is not in the set the frame
    is fitted over, which holds the nodes of the geometries only. *)
Lemma fit_leaves_out_stops_off_the_geometry :
  In (InitDimensions (nodes_points City.routes)) (trace City.run)
  /\ ((2, 0) ∈ referenced_points City.routes)
  /\ ((2, 0) ∉ nodes_points City.routes)
  /\ nodes_points City.routes <> referenced_points City.routes.
Proof.
  assert (Hin : (2, 0) ∈ referenced_points City.routes).
  { apply (bool_decide_unpack _). vm_compute. exact I. }
  assert (Hout : (2, 0) ∉ nodes_points City.routes).
  { apply (bool_decide_unpack _). vm_compute. exact I. }
  split; [|split; [exact Hin|split; [exact Hout|]]].
  - unfold City.run.
    rewrite (main_ok (reader_ops := Model.reader City.feed) (parser_ops := Model.parser [])
               (projector_ops := Model.projector 1 8) Model.ceil_metres City.env City.args
               _ _ _ _ _ _ city_resolved city_fitted).
    cbn [trace fst]. rewrite !in_app_iff. do 3 right. left. by left.
  - intros Heq. apply Hout. by rewrite Heq.
Qed.

(** C2, the claim as stated fails: in the crosstown scenario nothing in the
    feed matches the map route "12", and the run writes its three files all
    the same, the stops file without durations and the schedule file
    without a schedule. *)
Lemma unmatched_map_route_is_written :
  Model.has_match ("12", Some "A", Some "Z", 8%nat) (Model.feed_routes Crosstown.feed)
  = false
  /\ outcome Crosstown.run = inr tt
  /\ In "/one/data/city/12_nodes.wkt" (written_files (trace Crosstown.run))
  /\ In (WriteCsvStops
           [(0, 0); (125, 0); (250, 0); (375, 0); (500, 0); (625, 0); (750, 0); (875, 0)]
           None "/one/data/city/12_stops.csv") (trace Crosstown.run)
  /\ In (WriteCsvSchedule None "/one/data/city/12_schedule.csv") (trace Crosstown.run).
Proof.
  split; [reflexivity|]. split; [reflexivity|].
  split; [vm_compute; tauto|].
  split; vm_compute; tauto.
Qed.

(** C3, the claim as stated fails: the feed of the crosstown scenario
    carries shape geometry, and the run, given a map extract, reads the map
    extract and not the shapes. *)
Lemma shapes_ignored_when_map_extract_given :
  Model.has_shapes Crosstown.feed = true
  /\ used_shapes (trace Crosstown.run) = false
  /\ used_map_extract (trace Crosstown.run) = true
  /\ used_shapes (trace Crosstown.run) <> Model.has_shapes Crosstown.feed.
Proof.
  assert (Hs : Model.has_shapes Crosstown.feed = true) by (vm_compute; reflexivity).
  assert (Hu : used_shapes (trace Crosstown.run) = false) by (vm_compute; reflexivity).
  split; [exact Hs|]. split; [exact Hu|]. split; [vm_compute; reflexivity|].
  rewrite Hs, Hu. discriminate.
Qed.

(** C6, the claim as stated fails: in the city scenario the bounding width
    is 0.50 m and the largest projected x is 0.50 m, while the world size is
    1 m wide: no projected point reaches the ceiled bound. *)
Lemma projected_maximum_below_world_size :
  init_dimensions (Projector := Model.projector 1 8)
    (new_projector (Projector := Model.projector 1 8) 2) (nodes_points City.routes)
  = Some (City.proj, (50, 38))
  /\ In (WriteWktLinestring [(0, 0); (50, 0); (50, 38)] "/one/data/city/M1_nodes.wkt")
        (trace City.run)
  /\ Model.ceil_metres 50 = 1
  /\ (forall p, p ∈ nodes_points City.routes ->
        fst (Model.apply 1 8 2 {| Model.off_x := 0; Model.off_y := 0;
                                  Model.width := 50; Model.height := 38 |} p) <= 50)
  /\ ~ (exists p, p ∈ nodes_points City.routes
                  /\ fst (Model.apply 1 8 2 {| Model.off_x := 0; Model.off_y := 0;
                                               Model.width := 50; Model.height := 38 |} p)
                     = 100 * Model.ceil_metres 50).
Proof.
  assert (Hle : forall p, p ∈ nodes_points City.routes ->
            fst (Model.apply 1 8 2 {| Model.off_x := 0; Model.off_y := 0;
                                      Model.width := 50; Model.height := 38 |} p) <= 50).
  { intros p Hp.
    destruct (fit_bounds 1 8 2 (nodes_points City.routes)) as (f & Hf & Hb & _).
    { intros He. rewrite He in Hp. by apply not_elem_of_empty in Hp. }
    assert (Hf' : f = {| Model.off_x := 0; Model.off_y := 0;
                         Model.width := 50; Model.height := 38 |}).
    { vm_compute in Hf. by injection Hf as <-. }
    subst f. apply (Hb p Hp). }
  split; [exact city_fitted|]. split; [vm_compute; tauto|]. split; [reflexivity|].
  split; [exact Hle|].
  intros (p & Hp & Hx). specialize (Hle p Hp). rewrite Hx in Hle.
  vm_compute in Hle. by apply Hle.
Qed.

(** The crosstown scenario runs in reconciliation mode and completes: the
    unmatched route "12" gets its three files. *)
Lemma map_routes_all_written_witness :
  Py.brace_free (out_dir Crosstown.env Crosstown.args) = true
  /\ truthy (osm Crosstown.args) = true
  /\ init_dimensions (Projector := Model.projector 1 8)
       (new_projector (Projector := Model.projector 1 8) 2)
       (nodes_points (parse_routes (OsmRouteParser := Model.parser Crosstown.map_routes)
                                   (default "" (osm Crosstown.args))))
     = Some (Crosstown.proj, (875, 0))
  /\ outcome Crosstown.run = inr tt
  /\ written_files (trace Crosstown.run)
     = ["/one/data/city/12_nodes.wkt"; "/one/data/city/12_stops.csv";
        "/one/data/city/12_schedule.csv"; "/one/data/city/stations.wkt";
        "/one/city_settings.txt"].
Proof.
  assert (Ht : truthy (osm Crosstown.args) = true) by reflexivity.
  pose proof (map_routes_all_written
                (reader_ops := Model.reader Crosstown.feed)
                (parser_ops := Model.parser Crosstown.map_routes)
                (projector_ops := Model.projector 1 8)
                Model.ceil_metres Crosstown.env Crosstown.args
                Crosstown.proj 875 0 crosstown_brace_free Ht crosstown_fitted) as Hthm.
  cbv zeta in Hthm. destruct Hthm as (Ho & Hw & _).
  split; [exact crosstown_brace_free|]. split; [exact Ht|]. split; [exact crosstown_fitted|]. split; [exact Ho|exact Hw].
Defined.

(** The city scenario: the projected nodes span 0.50 m by 0.38 m, and the
    world is 1 m by 1 m. *)
Lemma projection_bounds_and_world_size_witness :
  Py.brace_free (out_dir City.env City.args) = true
  /\ resolve (reader_ops := Model.reader City.feed) (parser_ops := Model.parser []) City.args
  = (trace (resolve (reader_ops := Model.reader City.feed) (parser_ops := Model.parser [])
              City.args
            : M (Z * Z) (Z * Z) (list Z) (list Z) Model.ProjectorState _),
     inr (City.routes, City.gtfs))
  /\ nodes_points City.routes <> ∅
  /\ exists f s,
       Model.width f = 50 /\ Model.height f = 38
       /\ In (WriteSettings s "/one/city_settings.txt") (trace City.run)
       /\ setting "MovementModel.worldSize" s = Some (VStr "1, 1").
Proof.
  assert (Hne : nodes_points City.routes <> ∅).
  { intros He. assert (Hin : (0, 0) ∈ nodes_points City.routes).
    { apply (bool_decide_unpack _). vm_compute. exact I. }
    rewrite He in Hin. by apply not_elem_of_empty in Hin. }
  split; [exact city_brace_free|]. split; [exact city_resolved|]. split; [exact Hne|].
  destruct (projection_bounds_and_world_size
              (reader_ops := Model.reader City.feed) (parser_ops := Model.parser [])
              1 8 City.env City.args _ City.routes City.gtfs
              city_brace_free city_resolved Hne)
    as (f & s & Hfit & _ & _ & _ & _ & _ & _ & Hin & Hset & _).
  rewrite city_fitted in Hfit. injection Hfit as Hf.
  exists f, s. rewrite <- Hf in *. split; [reflexivity|]. split; [reflexivity|].
  split; [exact Hin|exact Hset].
Defined.

(** The empty scenario: no route, no point, a fatal fit and no output. *)
Lemma no_points_is_fatal_witness :
  resolve (reader_ops := Model.reader Empty.feed) (parser_ops := Model.parser []) Empty.args
  = (trace (resolve (reader_ops := Model.reader Empty.feed) (parser_ops := Model.parser [])
              Empty.args
            : M (Z * Z) (Z * Z) (list Z) (list Z) Model.ProjectorState _),
     inr ([], Model.with_refs (Model.load Empty.feed true) []))
  /\ (([] : list (TransitRoute (Z * Z))) = []
      \/ nodes_points ([] : list (TransitRoute (Z * Z))) = ∅)
  /\ outcome Empty.run = inl ProjectorError
  /\ written_files (trace Empty.run) = [].
Proof.
  assert (Hnone : ([] : list (TransitRoute (Z * Z))) = []
                  \/ nodes_points ([] : list (TransitRoute (Z * Z))) = ∅)
    by (left; reflexivity).
  destruct (no_points_is_fatal
              (reader_ops := Model.reader Empty.feed) (parser_ops := Model.parser [])
              1 8 Empty.env Empty.args _ [] _ empty_resolved Hnone)
    as (Ho & _ & Hw).
  split; [exact empty_resolved|]. split; [exact Hnone|]. split; [exact Ho|exact Hw].
Defined.

(** The city scenario: eight files, all distinct. *)
Lemma one_file_set_per_route_witness :
  resolve (reader_ops := Model.reader City.feed) (parser_ops := Model.parser []) City.args
  = (trace (resolve (reader_ops := Model.reader City.feed) (parser_ops := Model.parser [])
              City.args
            : M (Z * Z) (Z * Z) (list Z) (list Z) Model.ProjectorState _),
     inr (City.routes, City.gtfs))
  /\ init_dimensions (Projector := Model.projector 1 8)
       (new_projector (Projector := Model.projector 1 8) 2) (nodes_points City.routes)
     = Some (City.proj, (50, 38))
  /\ Py.brace_free (out_dir City.env City.args) = true
  /\ written_files (trace City.run)
     = ["/one/data/city/M1_nodes.wkt"; "/one/data/city/M1_stops.csv";
        "/one/data/city/M1_schedule.csv";
        "/one/data/city/M2_nodes.wkt"; "/one/data/city/M2_stops.csv";
        "/one/data/city/M2_schedule.csv";
        "/one/data/city/stations.wkt"; "/one/city_settings.txt"]
  /\ NoDup (written_files (trace City.run)).
Proof.
  assert (Hd : Py.brace_free (out_dir City.env City.args) = true) by reflexivity.
  destruct (one_file_set_per_route
              (reader_ops := Model.reader City.feed) (parser_ops := Model.parser [])
              (projector_ops := Model.projector 1 8) Model.ceil_metres
              City.env City.args _ City.routes City.gtfs City.proj 50 38
              city_resolved city_fitted Hd) as (Hw & Hnd).
  split; [exact city_resolved|]. split; [exact city_fitted|]. split; [exact Hd|].
  split; [exact Hw|]. apply Hnd.
  apply (bool_decide_unpack _). vm_compute. exact I.
Defined.

(** The city scenario: two route hosts and three stations, addresses 0 to 4. *)
Lemma host_range_spans_declared_hosts_witness :
  Py.brace_free (out_dir City.env City.args) = true
  /\ resolve (reader_ops := Model.reader City.feed) (parser_ops := Model.parser []) City.args
  = (trace (resolve (reader_ops := Model.reader City.feed) (parser_ops := Model.parser [])
              City.args
            : M (Z * Z) (Z * Z) (list Z) (list Z) Model.ProjectorState _),
     inr (City.routes, City.gtfs))
  /\ init_dimensions (Projector := Model.projector 1 8)
       (new_projector (Projector := Model.projector 1 8) 2) (nodes_points City.routes)
     = Some (City.proj, (50, 38))
  /\ exists s,
       In (WriteSettings s "/one/city_settings.txt") (trace City.run)
       /\ declared_hosts s = 5
       /\ setting "Events1.hosts" s = Some (VStr "0,4").
Proof.
  destruct (host_range_spans_declared_hosts
              (reader_ops := Model.reader City.feed) (parser_ops := Model.parser [])
              (projector_ops := Model.projector 1 8) Model.ceil_metres
              City.env City.args _ City.routes City.gtfs City.proj 50 38
              city_brace_free city_resolved city_fitted) as (s & Hin & Hset & Hdecl & _).
  split; [exact city_brace_free|]. split; [exact city_resolved|]. split; [exact city_fitted|].
  assert (Hfive : declared_hosts s = 5).
  { rewrite Hdecl. vm_compute. reflexivity. }
  exists s. split; [exact Hin|]. split; [exact Hfive|].
  rewrite Hset, Hfive. reflexivity.
Defined.

(** The city scenario: six stops on two lines, three stations. *)
Lemma stations_deduplicated_by_coordinate_witness :
  Py.brace_free (out_dir City.env City.args) = true
  /\ resolve (reader_ops := Model.reader City.feed) (parser_ops := Model.parser []) City.args
  = (trace (resolve (reader_ops := Model.reader City.feed) (parser_ops := Model.parser [])
              City.args
            : M (Z * Z) (Z * Z) (list Z) (list Z) Model.ProjectorState _),
     inr (City.routes, City.gtfs))
  /\ init_dimensions (Projector := Model.projector 1 8)
       (new_projector (Projector := Model.projector 1 8) 2) (nodes_points City.routes)
     = Some (City.proj, (50, 38))
  /\ exists stations : gset (Z * Z),
       In (WriteWktPoints stations "/one/data/city/stations.wkt") (trace City.run)
       /\ size stations = 3%nat
       /\ length (concat (map (fun r => transform_coords
                                          (Projector := Model.projector 1 8)
                                          City.proj (stops r)) City.routes)) = 6%nat.
Proof.
  destruct (stations_deduplicated_by_coordinate
              (reader_ops := Model.reader City.feed) (parser_ops := Model.parser [])
              (projector_ops := Model.projector 1 8) Model.ceil_metres
              City.env City.args _ City.routes City.gtfs City.proj 50 38
              city_brace_free city_resolved city_fitted)
    as (stations & s & _ & Hin & _ & _ & Hsize & _).
  split; [exact city_brace_free|]. split; [exact city_resolved|]. split; [exact city_fitted|].
  exists stations. split; [exact Hin|]. split; [|reflexivity].
  rewrite Hsize. vm_compute. reflexivity.
Defined.

(** * Further properties of the program *)

(** ** Strings, indices and slices *)

Lemma rfind_from_last_pos (c : ascii) (s : string) (i found : Z) :
  Py.rfind_from c s i found
  = match last_pos c s with
    | Some k => i + Z.of_nat k
    | None => found
    end.
Proof.
  revert i found. induction s as [|d rest IH]; intros i found; [reflexivity|].
  cbn [Py.rfind_from last_pos]. rewrite IH.
  destruct (last_pos c rest) as [k|]; [lia|].
  destruct (Ascii.eqb d c); lia.
Qed.

Lemma rfind_last_pos (c : ascii) (s : string) :
  Py.rfind c s = match last_pos c s with
                 | Some k => Z.of_nat k
                 | None => -1
                 end.
Proof.
  unfold Py.rfind. rewrite rfind_from_last_pos. by destruct (last_pos c s).
Qed.

Lemma last_pos_none (c : ascii) (s : string) :
  last_pos c s = None <-> has_char c s = false.
Proof.
  induction s as [|d rest IH]; [done|]. cbn [last_pos has_char].
  destruct (last_pos c rest) as [k|].
  - split; [done|]. intros Hf. apply orb_false_elim in Hf as [_ Hf].
    by apply IH in Hf.
  - destruct IH as [IH _]. rewrite (IH eq_refl), orb_false_r.
    by destruct (Ascii.eqb d c).
Qed.

Lemma last_pos_app (c : ascii) (x y : string) :
  has_char c y = false -> last_pos c (x +:+ String c y) = Some (String.length x).
Proof.
  intros Hy. induction x as [|d x IH].
  - change (EmptyString +:+ String c y) with (String c y).
    cbn [last_pos String.length]. apply last_pos_none in Hy.
    by rewrite Hy, Ascii.eqb_refl.
  - rewrite str_app_cons. cbn [last_pos String.length]. by rewrite IH.
Qed.

(** A string with the character splits at its last occurrence. *)
Lemma last_pos_split (c : ascii) (s : string) (k : nat) :
  last_pos c s = Some k ->
  exists x y, s = x +:+ String c y /\ String.length x = k /\ has_char c y = false.
Proof.
  revert k. induction s as [|d rest IH]; intros k; [done|]. cbn [last_pos].
  destruct (last_pos c rest) as [j|] eqn:Hj.
  - intros [= <-]. destruct (IH j eq_refl) as (x & y & -> & Hx & Hy).
    exists (String d x), y. rewrite str_app_cons. cbn. by rewrite Hx.
  - destruct (Ascii.eqb_spec d c) as [->|]; [|done]. intros [= <-].
    exists EmptyString, rest. split; [reflexivity|]. split; [reflexivity|].
    by apply last_pos_none.
Qed.

Lemma str_length_app (x y : string) :
  String.length (x +:+ y) = (String.length x + String.length y)%nat.
Proof.
  induction x as [|d x IH]; [reflexivity|]. rewrite str_app_cons. cbn. by rewrite IH.
Qed.

Lemma substring_all (s : string) : substring 0 (String.length s) s = s.
Proof. induction s as [|d s IH]; [reflexivity|]. cbn. by rewrite IH. Qed.

Lemma drop_str_app (x y : string) : Py.drop_str (String.length x) (x +:+ y) = y.
Proof.
  unfold Py.drop_str. induction x as [|d x IH].
  - cbn [String.length]. change (EmptyString +:+ y) with y.
    rewrite Nat.sub_0_r. apply substring_all.
  - rewrite str_app_cons. cbn [String.length substring Nat.sub]. exact IH.
Qed.

Lemma take_str_app (x y : string) : Py.take_str (String.length x) (x +:+ y) = x.
Proof.
  unfold Py.take_str. induction x as [|d x IH].
  - cbn [String.length]. by destruct (EmptyString +:+ y).
  - rewrite str_app_cons. cbn [String.length substring]. by rewrite IH.
Qed.

Lemma has_char_app (c : ascii) (x y : string) :
  has_char c (x +:+ y) = (has_char c x || has_char c y)%bool.
Proof.
  induction x as [|d x IH]; [reflexivity|]. rewrite str_app_cons. cbn [has_char].
  by rewrite IH, orb_assoc.
Qed.

(** A prefix has no character the string has not. *)
Lemma has_char_take (c : ascii) (n : nat) (s : string) :
  has_char c s = false -> has_char c (Py.take_str n s) = false.
Proof.
  unfold Py.take_str. revert n. induction s as [|d s IH]; intros n Hs.
  - by destruct n.
  - cbn [has_char] in Hs. apply orb_false_elim in Hs as [Hd Hs].
    destruct n as [|n]; [reflexivity|]. cbn [substring has_char].
    by rewrite Hd, IH.
Qed.

Lemma get_app_l (i : nat) (x y : string) :
  (i < String.length x)%nat -> String.get i (x +:+ y) = String.get i x.
Proof.
  revert i. induction x as [|d x IH]; intros i Hi; [cbn in Hi; lia|].
  rewrite str_app_cons. destruct i as [|i]; [reflexivity|].
  cbn [String.get]. apply IH. cbn in Hi. lia.
Qed.

(** A string that is not made of [c] only has another character somewhere. *)
Lemma only_char_false (c : ascii) (s : string) :
  only_char c s = false ->
  exists i d, (i < String.length s)%nat /\ String.get i s = Some d /\ Ascii.eqb d c = false.
Proof.
  induction s as [|d s IH]; [done|]. cbn [only_char].
  destruct (Ascii.eqb d c) eqn:Hd.
  - cbn [andb]. intros Hs. destruct (IH Hs) as (i & e & Hi & Hg & He).
    exists (S i), e. cbn. split; [lia|done].
  - intros _. exists 0%nat, d. cbn. split; [lia|done].
Qed.

Lemma only_char_get (c : ascii) (s : string) (i : nat) (d : ascii) :
  only_char c s = true -> String.get i s = Some d -> Ascii.eqb d c = true.
Proof.
  revert i. induction s as [|e s IH]; intros i Hs Hg; [by destruct i|].
  cbn [only_char] in Hs. apply andb_prop in Hs as [He Hs].
  destruct i as [|i]; [cbn in Hg; by injection Hg as <-|].
  cbn [String.get] in Hg. by eapply IH.
Qed.

(** ** The scenario name *)

Lemma basename_plain (y : string) : has_char "/" y = false -> Py.basename y = y.
Proof.
  intros Hy. unfold Py.basename. rewrite rfind_last_pos.
  apply last_pos_none in Hy. rewrite Hy. cbn [Z.add Z.to_nat].
  unfold Py.drop_str. rewrite Nat.sub_0_r. apply substring_all.
Qed.

Lemma basename_dir (x y : string) :
  has_char "/" y = false -> Py.basename (x +:+ String "/" y) = y.
Proof.
  intros Hy. unfold Py.basename. rewrite rfind_last_pos, (last_pos_app "/" x y Hy).
  replace (Z.to_nat (Z.of_nat (String.length x) + 1)) with (String.length (x +:+ "/"))
    by (rewrite str_length_app; cbn; lia).
  replace (x +:+ String "/" y) with ((x +:+ "/") +:+ y) by (by rewrite str_app_assoc).
  apply drop_str_app.
Qed.

Lemma basename_no_slash (p : string) : has_char "/" (Py.basename p) = false.
Proof.
  destruct (last_pos "/" p) as [k|] eqn:Hk.
  - destruct (last_pos_split "/" p k Hk) as (x & y & -> & _ & Hy).
    by rewrite basename_dir.
  - apply last_pos_none in Hk. by rewrite basename_plain.
Qed.

Lemma str_app_nil_r (s : string) : s +:+ EmptyString = s.
Proof. induction s as [|d s IH]; [reflexivity|]. rewrite str_app_cons. by f_equal. Qed.

Lemma take_str_prefix (n : nat) (s : string) : exists rest, s = Py.take_str n s +:+ rest.
Proof.
  unfold Py.take_str. revert n. induction s as [|d s IH]; intros n.
  - exists EmptyString. by destruct n.
  - destruct n as [|n]; [by exists (String d s)|].
    destruct (IH n) as [rest Hr]. exists rest.
    cbn [substring]. rewrite str_app_cons. by rewrite <- Hr.
Qed.

(** [splitext] gives the string itself or one of its prefixes. *)
Lemma splitext_root_cases (b : string) :
  Py.splitext_root b = b
  \/ exists n, Py.splitext_root b = Py.take_str n b.
Proof.
  unfold Py.splitext_root.
  destruct (Py.rfind "/" b <? Py.rfind "." b); [|by left].
  match goal with |- context [existsb ?f ?l] => destruct (existsb f l) end;
    [right; eauto | by left].
Qed.

Lemma scenario_no_slash (file : string) :
  has_char "/" (basename_without_ext file) = false.
Proof.
  unfold basename_without_ext. pose proof (basename_no_slash file) as Hb.
  destruct (splitext_root_cases (Py.basename file)) as [-> | [n ->]]; [exact Hb|].
  by apply has_char_take.
Qed.

Lemma splitext_no_dot (b : string) : has_char "." b = false -> Py.splitext_root b = b.
Proof.
  intros Hb. unfold Py.splitext_root. rewrite !rfind_last_pos.
  apply last_pos_none in Hb. rewrite Hb.
  destruct (last_pos "/" b) as [k|]; [|reflexivity].
  destruct (Z.ltb_spec (Z.of_nat k) (-1)); [lia|reflexivity].
Qed.

Lemma only_char_has_other (c c' : ascii) (s : string) :
  only_char c s = true -> Ascii.eqb c c' = false -> has_char c' s = false.
Proof.
  intros Hs Hc. induction s as [|d s IH]; [reflexivity|].
  cbn [only_char] in Hs. apply andb_prop in Hs as [Hd Hs].
  apply Ascii.eqb_eq in Hd. subst d. cbn [has_char]. by rewrite Hc, IH.
Qed.

(** Cutting the extension of a slash-free name: the part before the last dot,
    unless that part is made of dots only. *)
Lemma splitext_stem (stem ext : string) :
  has_char "/" stem = false -> has_char "/" ext = false -> has_char "." ext = false ->
  Py.splitext_root (stem +:+ String "." ext)
  = if only_char "." stem then stem +:+ String "." ext else stem.
Proof.
  intros Hs He Hd. unfold Py.splitext_root. rewrite !rfind_last_pos.
  assert (Hslash : last_pos "/" (stem +:+ String "." ext) = None).
  { apply last_pos_none. rewrite has_char_app. cbn [has_char]. by rewrite Hs, He. }
  rewrite Hslash, (last_pos_app "." stem ext Hd).
  destruct (Z.ltb_spec (-1) (Z.of_nat (String.length stem))) as [_|]; [|lia].
  cbn [Z.add Z.to_nat]. rewrite Nat2Z.id, Nat.sub_0_r.
  destruct (only_char "." stem) eqn:Ho.
  - match goal with |- context [existsb ?f ?l] => destruct (existsb f l) eqn:Hex end;
      [|reflexivity].
    apply existsb_exists in Hex as (i & Hi & Hf). apply in_seq in Hi.
    rewrite get_app_l in Hf by lia.
    destruct (String.get i stem) as [d|] eqn:Hg; [|discriminate].
    by rewrite (only_char_get "." stem i d Ho Hg) in Hf.
  - destruct (only_char_false "." stem Ho) as (i & d & Hi & Hg & Hne).
    match goal with |- context [existsb ?f ?l] => assert (Hex : existsb f l = true) end.
    { apply existsb_exists. exists i. split; [apply in_seq; lia|].
      rewrite get_app_l by lia. by rewrite Hg, Hne. }
    rewrite Hex. apply take_str_app.
Qed.

(** [basename_without_ext] never has a slash in its result, and its result is
    the start of the last path component. *)
Theorem basename_without_ext_component (file : string) :
  has_char "/" (basename_without_ext file) = false
  /\ (exists rest, Py.basename file = basename_without_ext file +:+ rest)
  /\ (forall x y, file = x +:+ String "/" y -> has_char "/" y = false ->
        Py.basename file = y)
  /\ (has_char "/" file = false -> Py.basename file = file).
Proof.
  split; [apply scenario_no_slash|]. split; [|split].
  - unfold basename_without_ext.
    destruct (splitext_root_cases (Py.basename file)) as [-> | [n ->]].
    + exists EmptyString. by rewrite str_app_nil_r.
    + apply take_str_prefix.
  - intros x y -> Hy. by apply basename_dir.
  - apply basename_plain.
Qed.

(** The scenario name of a feed file: for a file name without a dot it is the
    file name; for [stem.ext] it is [stem], unless [stem] is empty or made of
    dots only, in which case the whole name is kept (a hidden file keeps its
    name). *)
Theorem basename_without_ext_stem (dir name : string) :
  dir = EmptyString \/ (exists x, dir = x +:+ "/") ->
  has_char "/" name = false ->
  (has_char "." name = false -> basename_without_ext (dir +:+ name) = name)
  /\ (forall stem ext,
        name = stem +:+ String "." ext -> has_char "." ext = false ->
        basename_without_ext (dir +:+ name)
        = if only_char "." stem then name else stem).
Proof.
  intros Hdir Hname.
  assert (Hbase : Py.basename (dir +:+ name) = name).
  { destruct Hdir as [-> | [x ->]]; [by apply basename_plain|].
    rewrite str_app_assoc. by apply basename_dir. }
  unfold basename_without_ext. rewrite Hbase. split.
  - apply splitext_no_dot.
  - intros stem ext -> Hext. rewrite has_char_app in Hname.
    apply orb_false_elim in Hname as [Hs He]. cbn [has_char] in He.
    apply orb_false_elim in He as [_ He]. by apply splitext_stem.
Qed.

Lemma basename_without_ext_stem_witness :
  ("feeds/" = EmptyString \/ exists x, "feeds/" = x +:+ "/")
  /\ has_char "/" "city.v2.zip" = false
  /\ basename_without_ext "feeds/city.v2.zip" = "city.v2"
  /\ basename_without_ext "feeds/.hidden" = ".hidden".
Proof.
  assert (Hdir : "feeds/" = EmptyString \/ exists x, "feeds/" = x +:+ "/")
    by (right; exists "feeds"; reflexivity).
  split; [exact Hdir|]. split; [reflexivity|]. split.
  - destruct (basename_without_ext_stem "feeds/" "city.v2.zip" Hdir eq_refl) as [_ Hs].
    exact (Hs "city.v2" "zip" eq_refl eq_refl).
  - destruct (basename_without_ext_stem "feeds/" ".hidden" Hdir eq_refl) as [_ Hs].
    exact (Hs "" "hidden" eq_refl eq_refl).
Defined.

(** ** The route types *)

Lemma split_nonempty (sep : ascii) (s : string) : Py.split sep s <> [].
Proof.
  destruct s as [|c rest]; [done|]. cbn [Py.split].
  destruct (Ascii.eqb c sep); [done|]. by destruct (Py.split sep rest).
Qed.

Lemma split_join (sep : ascii) (s : string) :
  join_with (String sep EmptyString) (Py.split sep s) = s.
Proof.
  induction s as [|c rest IH]; [reflexivity|]. cbn [Py.split].
  pose proof (split_nonempty sep rest) as Hne.
  destruct (Py.split sep rest) as [|w ws]; [done|].
  destruct (Ascii.eqb_spec c sep) as [->|_].
  - change (join_with (String sep EmptyString) (EmptyString :: w :: ws))
      with (String sep (join_with (String sep EmptyString) (w :: ws))).
    by rewrite IH.
  - destruct ws as [|w' ws].
    + cbn [join_with] in *. by subst rest.
    + change (join_with (String sep EmptyString) (String c w :: w' :: ws))
        with (String c (join_with (String sep EmptyString) (w :: w' :: ws))).
      by rewrite IH.
Qed.

Lemma split_no_sep (sep : ascii) (s : string) :
  Forall (fun w => has_char sep w = false) (Py.split sep s).
Proof.
  induction s as [|c rest IH]; [by repeat constructor|]. cbn [Py.split].
  destruct (Ascii.eqb c sep) eqn:Hc; [by constructor|].
  destruct (Py.split sep rest) as [|w ws]; [repeat constructor; cbn; by rewrite Hc|].
  apply Forall_cons in IH as [Hw Hws]. constructor; [|exact Hws].
  cbn [has_char]. by rewrite Hc, Hw.
Qed.

Lemma split_single (sep : ascii) (s : string) :
  has_char sep s = false -> Py.split sep s = [s].
Proof.
  induction s as [|c rest IH]; [reflexivity|]. cbn [has_char Py.split].
  intros Hs. apply orb_false_elim in Hs as [Hc Hs]. by rewrite Hc, (IH Hs).
Qed.

Section RunFacts.

Context {Geo Pt Len Sched Dur G P : Type}.
Context `{Countable Geo} `{Countable Pt}.
Context `{reader_ops : !GTFSReader Geo Sched Dur G} `{parser_ops : !OsmRouteParser Geo}
        `{projector_ops : !Projector Geo Pt Len P}.
Context (ceil : Len -> Z).

Local Open Scope run_scope.
Local Abbreviation Run := (M Geo Pt Sched Dur P).

(** The route types [main] loads the feed with are the comma-separated fields
    of [--types]: there is at least one, none has a comma, joined with commas
    they give the argument back, and an argument without a comma is passed
    whole, the empty one included. *)
Theorem route_types_are_the_fields_of_types env args :
  exists route_types,
    In (LoadFeed (gtfs_file args) route_types (negb (truthy (osm args))))
       (trace (main ceil env args))
    /\ join_with "," route_types = types args
    /\ Forall (fun w => has_char "," w = false) route_types
    /\ route_types <> []
    /\ (has_char "," (types args) = false -> route_types = [types args]).
Proof.
  exists (Py.split "," (types args)). split; [|split; [|split; [|split]]].
  - destruct (main_trace_sources ceil env args) as (rest & -> & _).
    apply in_or_app. left. right. by left.
  - apply split_join.
  - apply split_no_sep.
  - apply split_nonempty.
  - apply split_single.
Qed.

Ltac by_run_shape env args :=
  let t := fresh "t" in
  let e := fresh "e" in
  let routes := fresh "routes" in
  let gtfs := fresh "gtfs" in
  let proj := fresh "proj" in
  let w := fresh "w" in
  let h := fresh "h" in
  let Hres := fresh "Hres" in
  let Hfit := fresh "Hfit" in
  destruct (resolve args : M Geo Pt Sched Dur P _) as [t [e | [routes gtfs]]] eqn:Hres;
  [ rewrite (main_resolve_error ceil env args t e Hres)
  | destruct (init_dimensions (new_projector 2) (nodes_points routes))
      as [[proj [w h]]|] eqn:Hfit;
    [ rewrite (main_ok ceil env args t routes gtfs proj w h Hres Hfit)
    | rewrite (main_fit_error ceil env args t routes gtfs Hres Hfit) ] ].

(** ** Routes from shapes *)

Lemma build_routes_inr (paths stops_of : gmap string (list Geo)) names acc rs :
  build_routes paths stops_of names acc = inr rs ->
  exists new, rs = acc ++ new /\ Forall2 (shape_route_of paths stops_of) names new.
Proof.
  revert acc. induction names as [|n names IH]; intros acc; cbn [build_routes].
  - intros [= <-]. exists []. by rewrite app_nil_r.
  - destruct (paths !! n) as [p|] eqn:Hp; [|done].
    destruct (stops_of !! n) as [s|] eqn:Hs; [|done].
    intros Hb. destruct (IH _ Hb) as (new & -> & Hnew).
    eexists (_ :: new). rewrite <- app_assoc. split; [reflexivity|].
    constructor; [|exact Hnew]. by repeat split.
Qed.

Lemma build_routes_inl (paths stops_of : gmap string (list Geo)) names acc e :
  build_routes paths stops_of names acc = inl e ->
  exists pre n post,
    names = pre ++ n :: post /\ e = KeyError n
    /\ ~ shaped paths stops_of n
    /\ Forall (shaped paths stops_of) pre.
Proof.
  revert acc. induction names as [|n names IH]; intros acc; cbn [build_routes]; [done|].
  destruct (paths !! n) as [p|] eqn:Hp.
  - destruct (stops_of !! n) as [s|] eqn:Hs.
    + intros Hb. destruct (IH _ Hb) as (pre & m & post & -> & -> & Hm & Hpre).
      exists (n :: pre), m, post. split; [reflexivity|]. split; [reflexivity|].
      split; [exact Hm|]. constructor; [|exact Hpre]. split; by eexists.
    + intros [= <-]. exists [], n, names. split; [reflexivity|]. split; [reflexivity|].
      split; [|constructor]. intros [_ [s Hs']]. congruence.
  - intros [= <-]. exists [], n, names. split; [reflexivity|]. split; [reflexivity|].
    split; [|constructor]. intros [[p Hp'] _]. congruence.
Qed.

Lemma build_routes_first_missing (paths stops_of : gmap string (list Geo)) pre n post acc :
  Forall (shaped paths stops_of) pre ->
  ~ shaped paths stops_of n ->
  build_routes paths stops_of (pre ++ n :: post) acc = inl (KeyError n).
Proof.
  intros Hpre Hn. revert acc. induction Hpre as [|m pre [[p Hp] [s Hs]] _ IH]; intros acc.
  - cbn [app build_routes].
    destruct (paths !! n) as [p|] eqn:Hp; [|reflexivity].
    destruct (stops_of !! n) as [s|] eqn:Hs; [|reflexivity].
    exfalso. apply Hn. split; by eexists.
  - cbn [app build_routes]. rewrite Hp, Hs. apply IH.
Qed.

Lemma shape_routes_outcome (gtfs : G) :
  outcome (shape_routes gtfs : Run _)
  = match build_routes (shape_paths (build_ref_trips gtfs))
                       (shape_stops (build_ref_trips gtfs))
                       (route_names (build_ref_trips gtfs)) [] with
    | inl e => inl e
    | inr routes => inr (routes, build_ref_trips gtfs)
    end.
Proof.
  unfold shape_routes. rewrite !bind_emit. cbn [outcome snd].
  match goal with
  | |- context [for_each ?ns ?body ?acc] =>
      pose proof (shape_loop_outcome (Pt := Pt) (Sched := Sched) (Dur := Dur) (P := P)
                    (shape_paths (build_ref_trips gtfs))
                                     (shape_stops (build_ref_trips gtfs)) ns acc) as Hl;
      destruct (for_each ns body acc) as [tl [e|rs]]
  end; cbn [outcome snd] in Hl; rewrite <- Hl; reflexivity.
Qed.

(** [shape_routes] builds the reference trips, then reads the route names and
    the two shape tables, and nothing else.  It returns one route per route
    name, in the order of the names and with repeated names repeated, each
    with the path and the stops the tables hold under its name; or it raises
    [KeyError] for the first name that one of the tables lacks. *)
Theorem shape_routes_result (gtfs : G) :
  trace (shape_routes gtfs : Run _)
  = [Log "reading route paths from gtfs shapes"; BuildRefTrips; RouteNames;
     ShapePaths; ShapeStops]
  /\ match outcome (shape_routes gtfs : Run _) with
     | inr (routes, gtfs') =>
         gtfs' = build_ref_trips gtfs
         /\ Forall2 (shape_route_of (shape_paths (build_ref_trips gtfs))
                                    (shape_stops (build_ref_trips gtfs)))
                    (route_names (build_ref_trips gtfs)) routes
     | inl e =>
         exists pre n post,
           route_names (build_ref_trips gtfs) = pre ++ n :: post
           /\ e = KeyError n
           /\ ~ shaped (shape_paths (build_ref_trips gtfs))
                       (shape_stops (build_ref_trips gtfs)) n
           /\ Forall (shaped (shape_paths (build_ref_trips gtfs))
                             (shape_stops (build_ref_trips gtfs))) pre
     end.
Proof.
  split; [apply shape_routes_trace|]. rewrite shape_routes_outcome.
  destruct (build_routes _ _ _ _) as [e|routes] eqn:Hb.
  - by apply build_routes_inl in Hb.
  - split; [reflexivity|]. apply build_routes_inr in Hb as (new & -> & Hnew).
    exact Hnew.
Qed.

(** With a scenario directory free of braces, a run fails with [KeyError n]
    exactly when it reads the routes from the shapes of the feed and [n] is
    the first route name without a path or without stops; the run then ends right after reading the shape tables:
    no schedule is built and nothing is fitted, transformed or written. *)
Theorem missing_shape_ends_the_run env args (n : string) :
  Py.brace_free (out_dir env args) = true ->
  (outcome (main ceil env args) = inl (KeyError n)
   <-> truthy (osm args) = false
       /\ exists pre post,
            route_names (build_ref_trips (loaded args)) = pre ++ n :: post
            /\ ~ shaped (shape_paths (build_ref_trips (loaded args)))
                        (shape_stops (build_ref_trips (loaded args))) n
            /\ Forall (shaped (shape_paths (build_ref_trips (loaded args)))
                              (shape_stops (build_ref_trips (loaded args)))) pre)
  /\ (outcome (main ceil env args) = inl (KeyError n) ->
      trace (main ceil env args)
      = preamble args
          ++ [Log "reading route paths from gtfs shapes"; BuildRefTrips; RouteNames;
              ShapePaths; ShapeStops]).
Proof.
  intros _.
  split.
  - rewrite main_outcome, resolve_routes.
    destruct (truthy (osm args)).
    + split; [|by intros [? _]].
      destruct (init_dimensions _ _); discriminate.
    + split.
      * destruct (build_routes _ _ _ _) as [e|routes] eqn:Hb.
        -- intros [= ->]. split; [reflexivity|].
           apply build_routes_inl in Hb as (pre & m & post & Hn & [= <-] & Hm & Hpre).
           by exists pre, post.
        -- destruct (init_dimensions _ _); discriminate.
      * intros (_ & pre & post & Hn & Hm & Hpre).
        by rewrite Hn, (build_routes_first_missing _ _ pre n post [] Hpre Hm).
  - by_run_shape env args; cbn [outcome trace fst snd]; [|discriminate|discriminate].
    intros [= ->]. f_equal. pose proof Hres as Ht%resolve_trace_of. subst t.
    rewrite resolve_trace. destruct (truthy (osm args)) eqn:Ht; [|reflexivity].
    exfalso. pose proof (resolve_osm (Pt := Pt) (Sched := Sched) (Dur := Dur) (P := P)
                           args Ht) as Ho.
    rewrite Hres in Ho. discriminate.
Qed.

(** ** Failure and completion *)

Lemma route_events_plain env args (proj : P) (durations : gmap string Dur)
    (sched : gmap string Sched) (routes : list (TransitRoute Geo)) :
  Forall (fun ev => is_settings_write ev = false /\ is_mkdir ev = false)
         (flat_map (route_events env args proj durations sched) routes).
Proof.
  apply Forall_flat_map. intros r _. unfold route_events. repeat constructor.
Qed.

Lemma resolve_plain (args : Args) :
  Forall (fun ev => is_settings_write ev = false /\ is_mkdir ev = false
                    /\ is_output ev = false /\ is_transform ev = false)
         (trace (resolve args : Run _)).
Proof.
  rewrite resolve_trace. destruct (truthy (osm args)); repeat constructor.
Qed.

(** With a scenario directory free of braces, a run that ends in an
    exception has written no file, made no directory and transformed no
    coordinate; a run that completes writes the settings file once, as its
    last action. *)
Theorem run_is_all_or_nothing env args :
  Py.brace_free (out_dir env args) = true ->
  match outcome (main ceil env args) with
  | inl _ =>
      Forall (fun ev => is_output ev = false /\ is_transform ev = false)
             (trace (main ceil env args))
  | inr _ =>
      exists pre s,
        trace (main ceil env args) = pre ++ [WriteSettings s (settings_path env args)]
        /\ Forall (fun ev => is_settings_write ev = false) pre
  end.
Proof.
  intros _.
  by_run_shape env args; cbn [outcome trace fst snd];
    pose proof Hres as Ht%resolve_trace_of; subst t.
  - apply Forall_app. split; [repeat constructor|].
    eapply Forall_impl; [apply resolve_plain|]. by intros ev (_ & _ & Ho & Htr).
  - exists (preamble args ++ trace (resolve args : Run _) ++ timing_events args
            ++ [InitDimensions (nodes_points routes)] ++ mkdir_events env args
            ++ [Log "creating ONE scenario and writing files"]
            ++ flat_map (route_events env args proj
                           (trip_durations (fst (timed args gtfs)))
                           (snd (timed args gtfs))) routes
            ++ [WriteWktPoints (stations_of proj routes) (stations_path env args)]),
           (final_settings ceil env args routes (stations_of proj routes) w h).
    split.
    + rewrite <- !app_assoc. reflexivity.
    + apply Forall_app. split; [repeat constructor|].
      apply Forall_app. split.
      { eapply Forall_impl; [apply resolve_plain|]. by intros ev (Hs & _). }
      apply Forall_app. split; [repeat constructor|].
      apply Forall_app. split; [repeat constructor|].
      apply Forall_app. split.
      { unfold mkdir_events. destruct (isdir env (out_dir env args)); repeat constructor. }
      apply Forall_app. split; [repeat constructor|].
      apply Forall_app. split; [|repeat constructor].
      eapply Forall_impl; [apply route_events_plain|]. by intros ev (Hs & _).
  - apply Forall_app. split; [repeat constructor|].
    apply Forall_app. split; [|repeat constructor].
    eapply Forall_impl; [apply resolve_plain|]. by intros ev (_ & _ & Ho & Htr).
Qed.


(** ** Where the files go *)

Lemma startswith_no_slash (s x : string) :
  has_char "/" s = false -> Py.startswith "/" x = false ->
  Py.startswith "/" (s +:+ x) = false.
Proof.
  destruct s as [|c s]; [done|]. rewrite str_app_cons. cbn [has_char Py.startswith].
  intros Hs _. by apply orb_false_elim in Hs as [Hc _].
Qed.

Lemma endswith_app (c : ascii) (a b : string) :
  b <> EmptyString -> Py.endswith c (a +:+ b) = Py.endswith c b.
Proof.
  intros Hb. induction a as [|d a IH]; [reflexivity|]. rewrite str_app_cons.
  cbn [Py.endswith]. destruct (a +:+ b) as [|e rest] eqn:Hab; [|exact IH].
  destruct a as [|a0 a']; [|rewrite str_app_cons in Hab; discriminate].
  change (EmptyString +:+ b) with b in Hab. by rewrite Hab in Hb.
Qed.

Lemma dir_prefix_data (root : string) :
  dir_prefix (dir_prefix root +:+ DATA_DIR) = dir_prefix root +:+ "data/".
Proof.
  unfold dir_prefix at 1.
  assert (He : String.eqb (dir_prefix root +:+ DATA_DIR) "" = false).
  { by destruct (dir_prefix root). }
  rewrite He, endswith_app by done. cbn [orb]. by rewrite str_app_assoc.
Qed.

Lemma out_dir_under_data env args :
  out_dir env args = dir_prefix (one_dir env) +:+ "data/" +:+ scenario_of args.
Proof.
  unfold out_dir. rewrite (join_relative (one_dir env) DATA_DIR) by reflexivity.
  rewrite join_relative.
  - by rewrite dir_prefix_data, str_app_assoc.
  - pose proof (scenario_no_slash (gtfs_file args)) as Hs. unfold scenario_of.
    destruct (basename_without_ext (gtfs_file args)) as [|c s]; [done|].
    cbn [has_char] in Hs. by apply orb_false_elim in Hs as [Hc _].
Qed.

Lemma settings_path_under_root env args :
  settings_path env args
  = dir_prefix (one_dir env) +:+ scenario_of args +:+ "_settings.txt".
Proof.
  unfold settings_path. apply join_relative.
  apply startswith_no_slash; [apply scenario_no_slash|reflexivity].
Qed.

Lemma dir_prefix_extends (dir : string) : exists rest, dir_prefix dir = dir +:+ rest.
Proof.
  unfold dir_prefix. destruct (String.eqb dir "" || Py.endswith "/" dir)%bool.
  - exists EmptyString. by rewrite str_app_nil_r.
  - by exists "/".
Qed.

(** Whatever the path of the feed file, the scenario directory is the entry
    of [<root>/data] named after the scenario, and the settings file is
    [<root>/<scenario>_settings.txt], where [<root>] is two levels above the
    working directory: every file a run writes has a path that starts with
    the root, and every file but the settings file one that starts with the
    scenario directory. *)
Theorem output_stays_under_the_root env args t routes gtfs proj w h :
  (resolve args : Run _) = (t, inr (routes, gtfs)) ->
  init_dimensions (new_projector 2) (nodes_points routes) = Some (proj, (w, h)) ->
  Py.brace_free (out_dir env args) = true ->
  out_dir env args = dir_prefix (one_dir env) +:+ "data/" +:+ scenario_of args
  /\ forall f, In f (written_files (trace (main ceil env args))) ->
       f = dir_prefix (one_dir env) +:+ scenario_of args +:+ "_settings.txt"
       \/ exists rest,
            f = dir_prefix (one_dir env) +:+ "data/" +:+ scenario_of args +:+ rest.
Proof.
  intros Hres Hfit Hd. split; [apply out_dir_under_data|].
  intros f Hf. rewrite (written_files_main_ok ceil env args t routes gtfs proj w h Hres Hfit)
    in Hf.
  destruct (dir_prefix_extends (out_dir env args)) as [sl Hsl].
  assert (Hunder : forall rest,
            exists rest', dir_prefix (out_dir env args) +:+ rest
                          = dir_prefix (one_dir env) +:+ "data/" +:+ scenario_of args
                              +:+ rest').
  { intros rest. exists (sl +:+ rest).
    by rewrite Hsl, out_dir_under_data, !str_app_assoc. }
  apply in_app_or in Hf as [Hf | [<- | [<- | []]]].
  - right. apply in_flat_map in Hf as (r & _ & Hf). unfold route_files in Hf.
    destruct Hf as [<- | [<- | [<- | []]]].
    + rewrite nodes_path_name by exact Hd. apply Hunder.
    + rewrite stops_path_name by exact Hd. apply Hunder.
    + rewrite schedule_path_name by exact Hd. apply Hunder.
  - right. rewrite stations_path_name. apply Hunder.
  - left. apply settings_path_under_root.
Qed.

(** ** What the settings refer to *)

Lemma settings_files_final env args (routes : list (TransitRoute Geo))
    (stations : gset Pt) (w h : Len) :
  settings_files (final_settings ceil env args routes stations w h)
  = flat_map (fun r => [stops_path env args (name r); schedule_path env args (name r);
                        nodes_path env args (name r)]) routes
      ++ [stations_path env args].
Proof.
  unfold settings_files, final_settings. cbn [settings_calls].
  rewrite flat_map_app. f_equal.
  induction routes as [|r routes IH]; [reflexivity|].
  cbn [map flat_map]. by rewrite IH.
Qed.

(** In a run that completes, with a scenario directory free of braces, the
    settings file is the last file written, and the files its host groups
    refer to are exactly the files written before it: the group of a route, named after the route, refers to the stops
    file, the schedule file and the nodes file of that route, and the
    station group to the stations file. *)
Theorem settings_refer_to_the_files_written env args t routes gtfs proj w h :
  Py.brace_free (out_dir env args) = true ->
  (resolve args : Run _) = (t, inr (routes, gtfs)) ->
  init_dimensions (new_projector 2) (nodes_points routes) = Some (proj, (w, h)) ->
  exists s written,
    In (WriteSettings s (settings_path env args)) (trace (main ceil env args))
    /\ written_files (trace (main ceil env args)) = written ++ [settings_path env args]
    /\ (forall f, In f (settings_files s) <-> In f written)
    /\ (forall r, r ∈ routes ->
          exists g, In (AddGroup g) (settings_calls s)
                    /\ group_id g = name r
                    /\ group_files g = [stops_path env args (name r);
                                        schedule_path env args (name r);
                                        nodes_path env args (name r)])
    /\ (exists g, In (AddGroup g) (settings_calls s)
                  /\ group_id g = "S"
                  /\ group_files g = [stations_path env args]).
Proof.
  intros _.
  intros Hres Hfit.
  exists (final_settings ceil env args routes (stations_of proj routes) w h),
         (flat_map (fun r => route_files env args (name r)) routes
            ++ [stations_path env args]).
  split; [by eapply write_settings_in|]. split.
  { rewrite (written_files_main_ok ceil env args t routes gtfs proj w h Hres Hfit).
    by rewrite <- app_assoc. }
  split; [|split].
  - intros f. rewrite settings_files_final, !in_app_iff, !in_flat_map.
    unfold route_files. cbn [In]. split.
    + intros [(r & Hr & Hf) | Hf]; [left; exists r | right]; intuition.
    + intros [(r & Hr & Hf) | Hf]; [left; exists r | right]; intuition.
  - intros r Hr. exists (route_group env args r). split; [|by split].
    unfold final_settings. cbn [settings_calls]. apply in_or_app. left.
    apply in_map_iff. exists r. split; [reflexivity|]. by apply list_elem_of_In.
  - exists (station_group env args (stations_of proj routes)). split; [|by split].
    unfold final_settings. cbn [settings_calls]. apply in_or_app. right. by left.
Qed.

(** ** The calls on the feed reader *)

Lemma route_events_no_reader env args (proj : P) (durations : gmap string Dur)
    (sched : gmap string Sched) (routes : list (TransitRoute Geo)) :
  List.filter is_reader_call (flat_map (route_events env args proj durations sched) routes)
  = [].
Proof.
  induction routes as [|r routes IH]; [reflexivity|].
  cbn [flat_map]. rewrite List.filter_app, IH. reflexivity.
Qed.

(** The feed reader is used in one fixed order: the feed is loaded once, with
    the file, the route types and the shape flag of the arguments; then the
    reference trips are set from the map routes, or built and the route
    names and the two shape tables read; and only when the routes are
    resolved the schedule is built, with the weekday and the exception limit
    of the arguments, and the durations are read after it. *)
Theorem reader_calls_in_order env args :
  List.filter is_reader_call (trace (main ceil env args))
  = LoadFeed (gtfs_file args) (Py.split "," (types args)) (negb (truthy (osm args)))
    :: (if truthy (osm args)
        then [SetRefTrips
                (map (fun r => (name r, first_stop r, last_stop r, length (stops r)))
                     (parse_routes (default "" (osm args))))]
        else [BuildRefTrips; RouteNames; ShapePaths; ShapeStops])
    ++ match routes_of (outcome (resolve args : Run _)) with
       | inr _ => [BuildSchedule (weekday args) (max_exceptions args); TripDurations]
       | inl _ => []
       end.
Proof.
  by_run_shape env args; cbn [outcome trace fst snd routes_of];
    pose proof Hres as Ht%resolve_trace_of; subst t;
    rewrite !List.filter_app, ?route_events_no_reader, resolve_trace;
    unfold preamble.
  - destruct (truthy (osm args)); reflexivity.
  - unfold mkdir_events.
    destruct (truthy (osm args)), (isdir env (out_dir env args)); reflexivity.
  - destruct (truthy (osm args)); reflexivity.
Qed.

End RunFacts.

(** ** The project root *)

Lemma parent_of_entry (dir entry : string) :
  has_char "/" entry = false ->
  Py.parent (dir +:+ String "/" entry) = if String.eqb dir "" then "/" else dir.
Proof.
  intros He. unfold Py.parent. rewrite rfind_last_pos, (last_pos_app "/" dir entry He).
  destruct dir as [|c dir]; [reflexivity|].
  destruct (Z.leb_spec (Z.of_nat (String.length (String c dir))) 0) as [Hl|_];
    [cbn in Hl; lia|].
  rewrite Nat2Z.id. cbn [String.eqb]. apply take_str_app.
Qed.

(** The project root, [Path.cwd().parent.parent], is the working directory
    less its last two components; one or no component below the file system
    root leaves the file system root. *)
Theorem one_dir_two_levels_up env (root a b : string) :
  has_char "/" a = false ->
  has_char "/" b = false ->
  (cwd env = root +:+ "/" +:+ a +:+ "/" +:+ b ->
   one_dir env = if String.eqb root "" then "/" else root)
  /\ (cwd env = "/" +:+ a -> one_dir env = "/").
Proof.
  intros Ha Hb. unfold one_dir. split; intros ->.
  - replace (root +:+ "/" +:+ a +:+ "/" +:+ b)
      with ((root +:+ String "/" a) +:+ String "/" b)
      by (by rewrite !str_app_assoc).
    rewrite (parent_of_entry _ b Hb).
    assert (Hne : String.eqb (root +:+ String "/" a) "" = false) by (by destruct root).
    rewrite Hne. apply (parent_of_entry root a Ha).
  - change ("/" +:+ a) with (EmptyString +:+ String "/" a).
    rewrite (parent_of_entry EmptyString a Ha). reflexivity.
Qed.

Lemma one_dir_two_levels_up_witness :
  has_char "/" "toolkit" = false
  /\ has_char "/" "gtfs" = false
  /\ cwd City.env = "/one" +:+ "/" +:+ "toolkit" +:+ "/" +:+ "gtfs"
  /\ one_dir City.env = "/one".
Proof.
  destruct (one_dir_two_levels_up City.env "/one" "toolkit" "gtfs" eq_refl eq_refl)
    as [Hup _].
  split; [reflexivity|]. split; [reflexivity|]. split; [reflexivity|].
  exact (Hup eq_refl).
Defined.

(** ** The scenarios, run further *)

(** The city scenario: everything lands under [/one], the route and station
    files under [/one/data/city]. *)
Lemma output_stays_under_the_root_witness :
  resolve (reader_ops := Model.reader City.feed) (parser_ops := Model.parser []) City.args
  = (trace (resolve (reader_ops := Model.reader City.feed) (parser_ops := Model.parser [])
              City.args
            : M (Z * Z) (Z * Z) (list Z) (list Z) Model.ProjectorState _),
     inr (City.routes, City.gtfs))
  /\ init_dimensions (Projector := Model.projector 1 8)
       (new_projector (Projector := Model.projector 1 8) 2) (nodes_points City.routes)
     = Some (City.proj, (50, 38))
  /\ Py.brace_free (out_dir City.env City.args) = true
  /\ out_dir City.env City.args = "/one/data/city"
  /\ forall f, In f (written_files (trace City.run)) ->
       f = "/one/city_settings.txt" \/ exists rest, f = "/one/data/city" +:+ rest.
Proof.
  assert (Hd : Py.brace_free (out_dir City.env City.args) = true) by reflexivity.
  destruct (output_stays_under_the_root
              (reader_ops := Model.reader City.feed) (parser_ops := Model.parser [])
              (projector_ops := Model.projector 1 8) Model.ceil_metres
              City.env City.args _ City.routes City.gtfs City.proj 50 38
              city_resolved city_fitted Hd) as (Hout & Hfiles).
  split; [exact city_resolved|]. split; [exact city_fitted|]. split; [exact Hd|].
  split; [exact Hout|exact Hfiles].
Defined.

(** The city scenario: the settings refer to the seven files written before
    the settings file. *)
Lemma settings_refer_to_the_files_written_witness :
  Py.brace_free (out_dir City.env City.args) = true
  /\ resolve (reader_ops := Model.reader City.feed) (parser_ops := Model.parser []) City.args
  = (trace (resolve (reader_ops := Model.reader City.feed) (parser_ops := Model.parser [])
              City.args
            : M (Z * Z) (Z * Z) (list Z) (list Z) Model.ProjectorState _),
     inr (City.routes, City.gtfs))
  /\ init_dimensions (Projector := Model.projector 1 8)
       (new_projector (Projector := Model.projector 1 8) 2) (nodes_points City.routes)
     = Some (City.proj, (50, 38))
  /\ exists s written,
       In (WriteSettings s "/one/city_settings.txt") (trace City.run)
       /\ written_files (trace City.run) = written ++ ["/one/city_settings.txt"]
       /\ (forall f, In f (settings_files s) <-> In f written).
Proof.
  destruct (settings_refer_to_the_files_written
              (reader_ops := Model.reader City.feed) (parser_ops := Model.parser [])
              (projector_ops := Model.projector 1 8) Model.ceil_metres
              City.env City.args _ City.routes City.gtfs City.proj 50 38
              city_brace_free city_resolved city_fitted)
    as (s & written & Hin & Hw & Hiff & _).
  split; [exact city_brace_free|]. split; [exact city_resolved|]. split; [exact city_fitted|].
  exists s, written. split; [exact Hin|]. split; [exact Hw|exact Hiff].
Defined.

(** The bare scenario: the feed has no shape for its route "M1", and the run
    ends with [KeyError] right after reading the shape tables. *)
Lemma missing_shape_ends_the_run_witness :
  Py.brace_free (out_dir Bare.env Bare.args) = true
  /\ outcome Bare.run = inl (KeyError "M1")
  /\ trace Bare.run
     = [Log "reading gtfs feed in feeds/bare.zip";
        LoadFeed "feeds/bare.zip" ["0"; "3"] true;
        Log "reading route paths from gtfs shapes"; BuildRefTrips; RouteNames;
        ShapePaths; ShapeStops].
Proof.
  destruct (missing_shape_ends_the_run
              (reader_ops := Model.reader Bare.feed) (parser_ops := Model.parser [])
              (projector_ops := Model.projector 1 8) Model.ceil_metres
              Bare.env Bare.args "M1" bare_brace_free) as [[_ Hfail] Htrace].
  assert (Hout : outcome Bare.run = inl (KeyError "M1")).
  { apply Hfail. split; [reflexivity|]. exists [], []. split; [reflexivity|].
    split; [|constructor]. intros [[p Hp] _]. vm_compute in Hp. discriminate. }
  split; [exact bare_brace_free|]. split; [exact Hout|]. exact (Htrace Hout).
Defined.

(** The city scenario: one fit, over the nodes of the two lines, before any
    transform; every transform that follows uses the fitted frame. *)
Lemma frame_fitted_once_over_route_nodes_witness :
  Py.brace_free (out_dir City.env City.args) = true
  /\ exists post,
       trace City.run
       = (preamble City.args
            ++ trace (resolve (reader_ops := Model.reader City.feed)
                              (parser_ops := Model.parser []) City.args
                      : M (Z * Z) (Z * Z) (list Z) (list Z) Model.ProjectorState _)
            ++ timing_events City.args)
           ++ InitDimensions (nodes_points City.routes) :: post
       /\ Forall (fun e => is_fit e = false) post
       /\ Forall (fun e => match e with
                           | TransformCoords p _ => p = City.proj
                           | _ => True
                           end) post.
Proof.
  pose proof (frame_fitted_once_over_route_nodes
                (reader_ops := Model.reader City.feed) (parser_ops := Model.parser [])
                (projector_ops := Model.projector 1 8) Model.ceil_metres
                City.env City.args city_brace_free) as Hthm.
  rewrite city_resolved in Hthm.
  destruct Hthm as (post & Ht & _ & Hfit & _ & _ & Hproj).
  rewrite city_fitted in Hproj. destruct Hproj as (Hsame & _).
  split; [exact city_brace_free|]. exists post.
  split; [exact Ht|]. split; [exact Hfit|exact Hsame].
Defined.

(** The empty scenario ends in the failed fit with nothing written and
    nothing transformed. *)
Lemma run_is_all_or_nothing_witness :
  Py.brace_free (out_dir Empty.env Empty.args) = true
  /\ outcome Empty.run = inl ProjectorError
  /\ Forall (fun ev => is_output ev = false /\ is_transform ev = false)
            (trace Empty.run).
Proof.
  pose proof (run_is_all_or_nothing
                (reader_ops := Model.reader Empty.feed) (parser_ops := Model.parser [])
                (projector_ops := Model.projector 1 8) Model.ceil_metres
                Empty.env Empty.args empty_brace_free) as Hthm.
  assert (Hout : outcome Empty.run = inl ProjectorError) by (vm_compute; reflexivity).
  unfold Empty.run in Hout. rewrite Hout in Hthm.
  split; [exact empty_brace_free|]. split; [exact Hout|exact Hthm].
Defined.

